(** * duckdb_demo: the ingestion script [prepare.py] and the query script [find.py]

    A shallow embedding of the two scripts and the properties of the
    storage-and-retrieval layer they implement.

    The scripts drive two external collaborators that are not part of the
    repository: the embedding model ([SentenceTransformer.encode]) and the
    database engine (DuckDB: [INSERT OR IGNORE] under a primary key,
    [list_cosine_similarity], [ORDER BY ... DESC], [LIMIT]).  The embedding
    model and the engine's similarity function and number ordering are
    interfaces ([Engine], [Embedder]); the SQL statements are given their
    relational meaning over a table held as the list of its rows in
    insertion order. *)

From Stdlib Require Import List ZArith NArith Lia Bool String Ascii.
From Stdlib Require Import Permutation Sorted.
Import ListNotations.

Set Implicit Arguments.

(** [length] is the length of a list. *)
#[local] Abbreviation length := List.length.

(** ** Python [str] operations used by the scripts

    A [str] is the list of its characters, a character its Unicode code
    point.  The whitespace test is Python's.  The case maps are Python's on
    every character whose image holds an ASCII character; any other
    character, whose image Python makes of characters from 128 up only, is
    left as it is: the scripts only look for ASCII text in an uppercased
    line and compare a lowercased line with ASCII words. *)
Module PyStr.

Definition char : Type := N.
Definition str : Type := list char.

(** The [str] of an ASCII literal. *)
Definition py (s : string) : str := map N_of_ascii (list_ascii_of_string s).

Local Open Scope N_scope.

(** [a == b] *)
Fixpoint eqb (a b : str) : bool :=
  match a, b with
  | [], [] => true
  | x :: a', y :: b' => (x =? y) && eqb a' b'
  | _, _ => false
  end.

(** [c.isspace()], the characters [strip()] removes: TAB to CR, FS to US,
    space, NEL, NBSP, U+1680, U+2000 to U+200A, U+2028, U+2029, U+202F,
    U+205F and U+3000. *)
Definition isspace (c : char) : bool :=
  ((9 <=? c) && (c <=? 13)) || ((28 <=? c) && (c <=? 32))
  || (c =? 0x85) || (c =? 0xA0) || (c =? 0x1680)
  || ((0x2000 <=? c) && (c <=? 0x200A))
  || (c =? 0x2028) || (c =? 0x2029) || (c =? 0x202F) || (c =? 0x205F)
  || (c =? 0x3000).

(** [c.lower()]: the ASCII capitals, and the two other characters whose
    lowercase holds an ASCII character (U+0130 and the Kelvin sign). *)
Definition lower_char (c : char) : str :=
  if (65 <=? c) && (c <=? 90) then [c + 32]
  else if c =? 0x130 then [0x69; 0x307]
  else if c =? 0x212A then [0x6B]
  else [c].

(** The characters from 128 up whose uppercase holds an ASCII character,
    with their uppercase. *)
Definition upper_special : list (char * str) :=
  [ (0xDF, [0x53; 0x53]);
    (0x131, [0x49]);
    (0x149, [0x2BC; 0x4E]);
    (0x17F, [0x53]);
    (0x1F0, [0x4A; 0x30C]);
    (0x1E96, [0x48; 0x331]);
    (0x1E97, [0x54; 0x308]);
    (0x1E98, [0x57; 0x30A]);
    (0x1E99, [0x59; 0x30A]);
    (0x1E9A, [0x41; 0x2BE]);
    (0xFB00, [0x46; 0x46]);
    (0xFB01, [0x46; 0x49]);
    (0xFB02, [0x46; 0x4C]);
    (0xFB03, [0x46; 0x46; 0x49]);
    (0xFB04, [0x46; 0x46; 0x4C]);
    (0xFB05, [0x53; 0x54]);
    (0xFB06, [0x53; 0x54]) ].

(** [c.upper()] *)
Definition upper_char (c : char) : str :=
  if (97 <=? c) && (c <=? 122) then [c - 32]
  else match find (fun p => fst p =? c) upper_special with
       | Some p => snd p
       | None => [c]
       end.

Local Close Scope N_scope.

(** [s.lower()] and [s.upper()] *)
Definition lower (s : str) : str := flat_map lower_char s.
Definition upper (s : str) : str := flat_map upper_char s.

Definition is_empty (s : str) : bool :=
  match s with
  | [] => true
  | _ :: _ => false
  end.

Fixpoint lstrip (s : str) : str :=
  match s with
  | [] => []
  | c :: s' => if isspace c then lstrip s' else s
  end.

Fixpoint rstrip (s : str) : str :=
  match s with
  | [] => []
  | c :: s' =>
      let r := rstrip s' in
      if isspace c && is_empty r then [] else c :: r
  end.

(** [s.strip()] *)
Definition strip (s : str) : str := rstrip (lstrip s).

(** [p] is the beginning of [s]. *)
Fixpoint prefix (p s : str) : bool :=
  match p, s with
  | [], _ => true
  | x :: p', y :: s' => N.eqb x y && prefix p' s'
  | _ :: _, [] => false
  end.

(** [s.startswith(p)] *)
Definition startswith (s p : str) : bool := prefix p s.

(** [s.endswith(p)] *)
Definition endswith (s p : str) : bool := prefix (rev p) (rev s).

(** [sub in s] *)
Fixpoint contains (sub s : str) : bool :=
  prefix sub s ||
  match s with
  | [] => false
  | _ :: s' => contains sub s'
  end.

(** [s.replace(old, new)] for a non-empty [old]: occurrences are replaced
    from the left and do not overlap; [skip] counts the characters of the
    occurrence just replaced that are still to be dropped. *)
Fixpoint replace_from (skip : nat) (old new s : str) : str :=
  match s with
  | [] => []
  | c :: s' =>
      match skip with
      | S k => replace_from k old new s'
      | O =>
          if prefix old s
          then new ++ replace_from (length old - 1) old new s'
          else c :: replace_from 0 old new s'
      end
  end.

Definition replace (s old new : str) : str := replace_from 0 old new s.

(** [bool(s)]: a string is true when it is not empty. *)
Definition truthy (s : str) : bool := negb (is_empty s).

(** A string all of whose characters are blank (the empty string too). *)
Fixpoint whitespace_only (s : str) : bool :=
  match s with
  | [] => true
  | c :: s' => isspace c && whitespace_only s'
  end.

End PyStr.

#[local] Abbreviation str := PyStr.str.
#[local] Abbreviation py := PyStr.py.

(** ** The external collaborators *)

(** The database engine, as far as the two scripts use it: the numbers held
    in a [FLOAT[]] column, the built-in [list_cosine_similarity] (which may
    raise instead of returning a number) and the comparison [ORDER BY] sorts
    numbers with. *)
Class Engine := {
  num : Type;
  list_cosine_similarity : list num -> list num -> option num;
  num_leb : num -> num -> bool
}.

(** [ORDER BY] compares with a total preorder. *)
Class EngineOrder (E : Engine) := {
  num_leb_total : forall a b : num, num_leb a b = true \/ num_leb b a = true;
  num_leb_trans : forall a b c : num,
      num_leb a b = true -> num_leb b c = true -> num_leb a c = true
}.

(** The embedding model: [model.encode(texts)] on a list of strings gives one
    vector per string, [model.encode(query)] on a string gives one vector;
    [None] is a raised exception. *)
Class Embedder (E : Engine) := {
  encode_batch : list str -> option (list (list num));
  encode : str -> option (list num)
}.

(** Exceptions that leave a script. *)
Inductive exn : Type :=
| EmbedderError      (* raised by [model.encode] *)
| EngineError        (* raised by [conn.execute] *)
| IndexError         (* [embeddings[i]] out of range *)
| OSError.           (* [open] or decoding of a file failed *)

Inductive outcome : Type :=
| Completed
| Aborted (e : exn).

Section Model.

Context {E : Engine} {M : Embedder E}.

(** ** The table [texts] (prepare.py, [create_table]) *)

(** One row; the fields are the columns in the order of the
    [CREATE TABLE] statement and of the tuples of [data_to_insert].  A line
    number is the Python integer the script passes; the column is a 32-bit
    [INTEGER], a bound only a file of 2^31 lines reaches and the model
    leaves out. *)
Record row : Type := mk_row {
  line_number : Z;
  filename : str;
  author : str;
  title : str;
  content : str;
  embedding : list num
}.

(** A table is the list of its rows, oldest first. *)
Definition table : Type := list row.

(** [PRIMARY KEY (filename, line_number)] *)
Definition same_key (a b : row) : bool :=
  PyStr.eqb (filename a) (filename b) && (line_number a =? line_number b)%Z.

Definition has_key (t : table) (r : row) : bool := existsb (same_key r) t.

Definition key (r : row) : str * Z := (filename r, line_number r).

(** The primary-key constraint as a property of a table. *)
Definition unique_keys (t : table) : Prop := NoDup (map key t).

(** [CREATE TABLE IF NOT EXISTS texts (...)]: a database file without the
    table ([None]) gets an empty one, an existing table is kept. *)
Definition create_table (db : option table) : table :=
  match db with
  | Some t => t
  | None => []
  end.

(** [INSERT OR IGNORE INTO texts ... VALUES (?, ?, ?, ?, ?, ?)] for one
    tuple: a row whose key is present is dropped, another is appended.
    The column [embedding FLOAT[]] takes a list of any length. *)
Definition insert_or_ignore (t : table) (r : row) : table :=
  if has_key t r then t else t ++ [r].

(** [conn.executemany(INSERT OR IGNORE ..., data_to_insert)]: the statement
    is run for every tuple, in order. *)
Definition executemany (t : table) (data : list row) : table :=
  fold_left insert_or_ignore data t.

(** [SELECT count] of all rows [FROM texts] *)
Definition count (t : table) : Z := Z.of_nat (List.length t).

(** The tables the scripts can build: from no table at all, by
    [create_table] and [INSERT OR IGNORE]. *)
Inductive reachable : table -> Prop :=
| reach_create : reachable (create_table None)
| reach_insert t r : reachable t -> reachable (insert_or_ignore t r).

(** ** prepare.py, [parse_file] *)


Definition START_MARKER : str := py "START OF THE PROJECT GUTENBERG EBOOK".
Definition END_MARKER : str := py "END OF THE PROJECT GUTENBERG EBOOK".

(** The [for i, line in enumerate(file_content)] loop, from index [i] on;
    [author], [title] and [start_parsing] are the loop's variables and the
    result's last component is what the loop appends to [lines]. *)
Fixpoint parse_loop (i : Z) (file_content : list str)
         (author title : str) (start_parsing : bool)
  : str * str * list (Z * str) :=
  match file_content with
  | [] => (author, title, [])
  | line :: rest =>
      let line_num := (i + 1)%Z in
      let stripped_line := PyStr.strip line in
      let title' :=
        if PyStr.startswith stripped_line (py "Title: ")
        then PyStr.strip (PyStr.replace stripped_line (py "Title: ") [])
        else title in
      let author' :=
        if PyStr.startswith stripped_line (py "Title: ") then author
        else if PyStr.startswith stripped_line (py "Author: ")
             then PyStr.strip (PyStr.replace stripped_line (py "Author: ") [])
             else author in
      let upper_line := PyStr.upper line in
      if PyStr.contains START_MARKER upper_line
      then parse_loop (i + 1) rest author' title' true
      else if PyStr.contains END_MARKER upper_line
           then (author', title', [])
           else
             let '(a, t, lines) :=
               parse_loop (i + 1) rest author' title' start_parsing in
             (a, t,
              if start_parsing && PyStr.truthy stripped_line
              then (line_num, stripped_line) :: lines
              else lines)
  end.

(** [parse_file(filepath)], on the lines [f.readlines()] returned. *)
Definition parse_file (file_content : list str)
  : str * str * list (Z * str) :=
  parse_loop 0 file_content (py "Unknown") (py "Unknown") false.

Local Open Scope Z_scope.

(** ** prepare.py, [main] *)

(** The [for i, text in enumerate(texts)] loop that fills
    [data_to_insert], from index [i] on. *)
Fixpoint data_to_insert (fname au ti : str) (line_numbers : list Z)
         (embeddings : list (list num)) (i : nat) (texts : list str)
  : option (list row) :=
  match texts with
  | [] => Some []
  | text :: rest =>
      match nth_error line_numbers i, nth_error embeddings i with
      | Some line_num, Some embedding_list =>
          match data_to_insert fname au ti line_numbers embeddings (S i) rest with
          | Some rows =>
              Some (mk_row line_num fname au ti text embedding_list :: rows)
          | None => None
          end
      | _, _ => None
      end
  end.

(** The tuples of a file whose model call gave one vector per line: each
    content line with its vector, in the order of the lines. *)
Definition rows_of (fname au ti : str) (content_lines : list (Z * str))
           (embeddings : list (list num)) : list row :=
  map (fun p => mk_row (fst (fst p)) fname au ti (snd (fst p)) (snd p))
      (combine content_lines embeddings).

(** Lines 136 to 149: the row count before, the bulk insert, the row count
    after and the two counts derived from them. *)
Definition insert_batch (t : table) (data : list row) : table * Z * Z :=
  let count_before := count t in
  let t' := executemany t data in
  let count_after := count t' in
  let inserted_count := (count_after - count_before)%Z in
  let skipped_count := (Z.of_nat (List.length data) - inserted_count)%Z in
  (t', inserted_count, skipped_count).

Record totals : Type := mk_totals {
  total_files_loaded : Z;
  total_lines_processed : Z;
  total_lines_inserted : Z;
  total_lines_skipped : Z
}.

Definition no_totals : totals := mk_totals 0 0 0 0.

(** What the loop prints about a file, as far as the properties need it. *)
Inductive message : Type :=
| MsgProcessing (fname : str)
| MsgLines (n : Z)
| MsgNoContent
| MsgInserted (inserted_count skipped_count : Z).

Record state : Type := mk_state {
  db : table;
  tot : totals;
  out : list message
}.

(** One iteration of [for filename in files] (lines 100 to 154); [file] is
    what [open] and [readlines] give, [None] when they raise.  The state
    returned with an exception is the state at the point of the raise. *)
Definition process_file (st : state) (fname : str)
           (file : option (list str)) : state * option exn :=
  let tot1 :=
    mk_totals (total_files_loaded (tot st) + 1) (total_lines_processed (tot st))
              (total_lines_inserted (tot st)) (total_lines_skipped (tot st)) in
  let out1 := out st ++ [MsgProcessing fname] in
  match file with
  | None => (mk_state (db st) tot1 out1, Some OSError)
  | Some file_content =>
      let '(au, ti, content_lines) := parse_file file_content in
      let out2 := out1 ++ [MsgLines (Z.of_nat (List.length content_lines))] in
      match content_lines with
      | [] => (mk_state (db st) tot1 (out2 ++ [MsgNoContent]), None)
      | _ :: _ =>
          let tot2 :=
            mk_totals (total_files_loaded tot1)
                      (total_lines_processed tot1 + Z.of_nat (List.length content_lines))
                      (total_lines_inserted tot1) (total_lines_skipped tot1) in
          let line_numbers := map fst content_lines in
          let texts := map snd content_lines in
          match encode_batch texts with
          | None => (mk_state (db st) tot2 out2, Some EmbedderError)
          | Some embeddings =>
              match data_to_insert fname au ti line_numbers embeddings 0 texts with
              | None => (mk_state (db st) tot2 out2, Some IndexError)
              | Some data =>
                  let '(t', inserted_count, skipped_count) :=
                    insert_batch (db st) data in
                  (mk_state t'
                     (mk_totals (total_files_loaded tot2)
                                (total_lines_processed tot2)
                                (total_lines_inserted tot2 + inserted_count)
                                (total_lines_skipped tot2 + skipped_count))
                     (out2 ++ [MsgInserted inserted_count skipped_count]),
                   None)
              end
          end
      end
  end.

(** The [for filename in files] loop: an exception leaves it at once. *)
Fixpoint process_files (st : state)
         (files : list (str * option (list str))) : state * outcome :=
  match files with
  | [] => (st, Completed)
  | (fname, file) :: rest =>
      match process_file st fname file with
      | (st', None) => process_files st' rest
      | (st', Some e) => (st', Aborted e)
      end
  end.

(** [main()] of prepare.py: [db0] is the database file's table when the
    script starts, [texts_dir] the entries of the directory [texts] with
    what reading each gives, [None] when the directory does not exist. *)
Definition prepare_main (db0 : option table)
           (texts_dir : option (list (str * option (list str))))
  : state * outcome :=
  let st0 := mk_state (create_table db0) no_totals [] in
  match texts_dir with
  | None => (st0, Completed)
  | Some entries =>
      let files := filter (fun f => PyStr.endswith (fst f) (py ".txt")) entries in
      match files with
      | [] => (st0, Completed)
      | _ :: _ => process_files st0 files
      end
  end.

Local Close Scope Z_scope.

(** ** find.py, [main] *)

(** The select list on every row of [FROM texts]:
    [list_cosine_similarity(embedding, ?) as similarity] next to the row;
    the statement raises when the function raises on a row. *)
Fixpoint select_similarity (t : table) (query_embedding : list num)
  : option (list (row * num)) :=
  match t with
  | [] => Some []
  | r :: t' =>
      match list_cosine_similarity (embedding r) query_embedding with
      | None => None
      | Some similarity =>
          match select_similarity t' query_embedding with
          | None => None
          | Some rows => Some ((r, similarity) :: rows)
          end
      end
  end.

(** [x] may stand before [y] under [ORDER BY similarity DESC]. *)
Definition desc (x y : row * num) : Prop := num_leb (snd y) (snd x) = true.

(** Two rows the ordering does not tell apart. *)
Definition tie (x y : row * num) : Prop := desc x y /\ desc y x.

(** [ORDER BY similarity DESC]: the rows, rearranged so that similarity
    never increases.  The statement names no second sort key, so nothing
    more is said about rows of equal similarity. *)
Definition order_by_similarity_desc (rows sorted : list (row * num)) : Prop :=
  Permutation rows sorted /\ Sorted desc sorted.

(** The [SELECT ... FROM texts ORDER BY similarity DESC LIMIT ?] of lines
    62 to 73 returns [res] when [LIMIT] is given the row count [n]. *)
Definition search_results (t : table) (query_embedding : list num) (n : nat)
           (res : list (row * num)) : Prop :=
  exists rows sorted,
    select_similarity t query_embedding = Some rows /\
    order_by_similarity_desc rows sorted /\
    res = firstn n sorted.

(** The same statement raises on a row. *)
Definition search_raises (t : table) (query_embedding : list num) : Prop :=
  select_similarity t query_embedding = None.

(** [conn.execute(..., [query_embedding, n_neighbors])] with the integer
    [n] that [argparse] read for [-n], which may be any integer: the engine
    refuses a negative [LIMIT], and the model leaves open whether it takes
    one of 2^63 or more (it may raise, it may return the rows). *)
Definition execute_returns (t : table) (query_embedding : list num) (n : Z)
           (res : list (row * num)) : Prop :=
  (0 <= n)%Z /\ search_results t query_embedding (Z.to_nat n) res.

Definition execute_raises (t : table) (query_embedding : list num) (n : Z)
  : Prop :=
  (n < 0)%Z \/ (2 ^ 63 <= n)%Z \/ search_raises t query_embedding.

(** One way to run [ORDER BY similarity DESC]: insertion from the right,
    which keeps rows of equal similarity in the order of the scan. *)
Fixpoint insert_desc (x : row * num) (l : list (row * num)) : list (row * num) :=
  match l with
  | [] => [x]
  | y :: l' =>
      if num_leb (snd y) (snd x) then x :: l else y :: insert_desc x l'
  end.

Definition sort_desc (rows : list (row * num)) : list (row * num) :=
  fold_right insert_desc [] rows.

(** The search with that sort. *)
Definition search (t : table) (query_embedding : list num) (n : nat)
  : option (list (row * num)) :=
  match select_similarity t query_embedding with
  | None => None
  | Some rows => Some (firstn n (sort_desc rows))
  end.

(** A fetched tuple: title, author, line_number, filename, content,
    similarity. *)
Definition fetched : Type := str * str * Z * str * str * num.

Definition fetch (x : row * num) : fetched :=
  (title (fst x), author (fst x), line_number (fst x), filename (fst x),
   content (fst x), snd x).

(** [query.lower() in ('exit', 'quit')] *)
Definition wants_exit (query : str) : bool :=
  let q := PyStr.lower query in
  PyStr.eqb q (py "exit") || PyStr.eqb q (py "quit").

(** What one run of the loop does to its collaborators and prints. *)
Inductive event : Type :=
| EvPrompt                                           (* [input(...)] *)
| EvEncode (query : str)                          (* [model.encode(query)] *)
| EvExecute (query_embedding : list num) (n : Z)     (* [conn.execute(...)] *)
| EvResults (results : list fetched).                (* the printed matches *)

(** The [while True] loop of lines 42 to 82 on the table [t] with
    [n_neighbors = n]: [query_loop t n inputs evs o] when the loop, reading
    the lines [inputs] and then the end of the input, does [evs] and ends
    as [o].  The connection is read-only and the loop has no statement
    that writes: the table is the same in every iteration. *)
Inductive query_loop (t : table) (n : Z)
  : list str -> list event -> outcome -> Prop :=
| loop_eof :
    query_loop t n [] [EvPrompt] Completed
| loop_exit query rest :
    wants_exit query = true ->
    query_loop t n (query :: rest) [EvPrompt] Completed
| loop_continue query rest evs o :
    wants_exit query = false ->
    PyStr.truthy (PyStr.strip query) = false ->
    query_loop t n rest evs o ->
    query_loop t n (query :: rest) (EvPrompt :: evs) o
| loop_encode_raises query rest :
    wants_exit query = false ->
    PyStr.truthy (PyStr.strip query) = true ->
    encode query = None ->
    query_loop t n (query :: rest) [EvPrompt; EvEncode query]
               (Aborted EmbedderError)
| loop_execute_raises query rest query_embedding :
    wants_exit query = false ->
    PyStr.truthy (PyStr.strip query) = true ->
    encode query = Some query_embedding ->
    execute_raises t query_embedding n ->
    query_loop t n (query :: rest)
               [EvPrompt; EvEncode query; EvExecute query_embedding n]
               (Aborted EngineError)
| loop_results query rest query_embedding res evs o :
    wants_exit query = false ->
    PyStr.truthy (PyStr.strip query) = true ->
    encode query = Some query_embedding ->
    execute_returns t query_embedding n res ->
    query_loop t n rest evs o ->
    query_loop t n (query :: rest)
               (EvPrompt :: EvEncode query :: EvExecute query_embedding n
                  :: EvResults (map fetch res) :: evs)
               o.

(** The queries a run handed to the embedding model. *)
Fixpoint encoded (evs : list event) : list str :=
  match evs with
  | [] => []
  | EvEncode query :: evs' => query :: encoded evs'
  | _ :: evs' => encoded evs'
  end.

(** ** Notions the further properties are stated with *)

(** The two marker tests of [parse_file], on a line as read. *)
Definition is_start_line (line : str) : bool :=
  PyStr.contains START_MARKER (PyStr.upper line).

Definition is_end_line (line : str) : bool :=
  PyStr.contains END_MARKER (PyStr.upper line).

(** A line that is neither marker line. *)
Definition plain_line (line : str) : Prop :=
  is_start_line line = false /\ is_end_line line = false.

(** [enumerate(l, start=i)] *)
Fixpoint enumerate_from (i : Z) (l : list str) : list (Z * str) :=
  match l with
  | [] => []
  | x :: l' => (i, x) :: enumerate_from (i + 1) l'
  end.

(** The lines of [body], numbered from [i], stripped, the blank ones
    dropped. *)
Definition stripped_lines (i : Z) (body : list str) : list (Z * str) :=
  filter (fun p => PyStr.truthy (snd p))
         (map (fun p => (fst p, PyStr.strip (snd p))) (enumerate_from i body)).

(** The row a key selects: the first row with that file name and line
    number. *)
Definition key_test (k : str * Z) (r : row) : bool :=
  PyStr.eqb (fst k) (filename r) && (snd k =? line_number r)%Z.

Definition find_key (k : str * Z) (t : table) : option row :=
  find (key_test k) t.

(** The elements before the first one that satisfies [p]. *)
Fixpoint take_until {A : Type} (p : A -> bool) (l : list A) : list A :=
  match l with
  | [] => []
  | x :: l' => if p x then [] else x :: take_until p l'
  end.

(** The lines typed before the first exit word that are not blank. *)
Definition queries_of (inputs : list str) : list str :=
  filter (fun q => PyStr.truthy (PyStr.strip q)) (take_until wants_exit inputs).

(** The file names a run announced with [Processing file: ...]. *)
Fixpoint announced (msgs : list message) : list str :=
  match msgs with
  | [] => []
  | MsgProcessing fname :: msgs' => fname :: announced msgs'
  | _ :: msgs' => announced msgs'
  end.

End Model.

(** ** Stand-ins for the collaborators, to run the scripts on examples *)

Module Stub.

(** Whole numbers for floats; the similarity is the dot product and is
    refused on lists of different lengths. *)
Fixpoint dot (a b : list Z) : option Z :=
  match a, b with
  | [], [] => Some 0%Z
  | x :: a', y :: b' =>
      match dot a' b' with
      | Some d => Some (x * y + d)%Z
      | None => None
      end
  | _, _ => None
  end.

Definition engine : Engine :=
  {| num := Z; list_cosine_similarity := dot; num_leb := Z.leb |}.

(** A text becomes the vector of its length and 1; the text
    "unembeddable" makes the model raise. *)
Definition vec (text : str) : list (@num engine) :=
  [Z.of_nat (length text); 1%Z].

Definition embedder : Embedder engine :=
  {| encode_batch := fun texts =>
       if existsb (PyStr.eqb (py "unembeddable")) texts then None
       else Some (map vec texts);
     encode := fun query =>
       if PyStr.eqb (py "unembeddable") query then None else Some (vec query) |}.

(** A small book, as [readlines] gives it. *)
Definition book : list str :=
  map py
    [ "Title: T" ; "Author: A" ;
      "*** START OF THE PROJECT GUTENBERG EBOOK T ***" ;
      "the cat sat" ; "" ; "  a dog ran  " ;
      "*** END OF THE PROJECT GUTENBERG EBOOK T ***" ;
      "trailer" ]%string.

(** A book the stub model cannot embed. *)
Definition bad_book : list str :=
  map py [ "*** START OF THE PROJECT GUTENBERG EBOOK ***" ; "unembeddable" ]%string.

Definition row1 : row (E := engine) :=
  mk_row (E := engine) 4 (py "a.txt") (py "A") (py "T") (py "the cat sat") [11%Z; 1%Z].
Definition row2 : row (E := engine) :=
  mk_row (E := engine) 6 (py "a.txt") (py "A") (py "T") (py "a dog ran") [9%Z; 1%Z].
(** The same line again, in another file: the same vector. *)
Definition row3 : row (E := engine) :=
  mk_row (E := engine) 1 (py "b.txt") (py "A") (py "T") (py "the cat sat") [11%Z; 1%Z].
(** A row whose vector has another length. *)
Definition row4 : row (E := engine) :=
  mk_row (E := engine) 2 (py "b.txt") (py "A") (py "T") (py "short") [5%Z].

(** The state a first run starts from. *)
Definition st0 : state (E := engine) := mk_state [] no_totals [].

(** What the stub model gives for the content lines of [book]. *)
Definition book_vectors : list (list (@num engine)) :=
  [vec (py "the cat sat"); vec (py "a dog ran")].

Definition query_vector : list (@num engine) := [1%Z; 0%Z].

(** The parts of [book]. *)
Definition preamble : list str := map py [ "Title: T" ; "Author: A" ]%string.
Definition start_line : str :=
  py "*** START OF THE PROJECT GUTENBERG EBOOK T ***".
Definition body : list str :=
  map py [ "the cat sat" ; "" ; "  a dog ran  " ]%string.
Definition end_line : str :=
  py "*** END OF THE PROJECT GUTENBERG EBOOK T ***".

(** A tuple with the key of [row1] and another text and vector. *)
Definition row1_again : row (E := engine) :=
  mk_row (E := engine) 4 (py "a.txt") (py "A") (py "T") (py "changed") [0%Z; 0%Z].

(** A directory with a file that is not a text file. *)
Definition mixed_dir : list (str * option (list str)) :=
  [ (py "a.txt", Some book) ; (py "notes.md", None) ; (py "b.txt", Some book) ].

(** Lines with blanks that are not ASCII: a no-break space alone, and a
    text between an em space and an ideographic space. *)
Definition nbsp_line : str := [0xA0%N].
Definition padded_line : str := (0x2003%N :: py "padded" ++ [0x3000%N])%list.

(** A start marker line written with the long s and the ligature of long s
    and t, which [upper()] turns into S and ST. *)
Definition long_s_start_line : str :=
  (0x17F%N :: py "tart of the project gutenberg ebook")%list.

(** A book with such lines. *)
Definition blank_book : list str :=
  [ long_s_start_line ; nbsp_line ; padded_line ; end_line ].

(** The same line at 25 places of one file: 25 rows with one vector. *)
Definition tied_row (i : nat) : row (E := engine) :=
  mk_row (E := engine) (Z.of_nat i) (py "c.txt") (py "A") (py "T")
         (py "the cat sat") [11%Z; 1%Z].

Definition tied_table : table (E := engine) := map tied_row (seq 1 25).

End Stub.

(** * Properties *)

(** ** Strings *)

Module PyStrFacts.
Import PyStr.

Lemma eqb_eq (a b : str) : eqb a b = true <-> a = b.
Proof.
  revert b. induction a as [|x a IH]; intros [|y b]; simpl;
    try (split; [discriminate | discriminate]); [tauto|].
  rewrite andb_true_iff, N.eqb_eq, IH.
  split; [intros [-> ->]; reflexivity | intros H; inversion H; auto].
Qed.

Lemma eqb_refl (a : str) : eqb a a = true.
Proof. now apply eqb_eq. Qed.

Lemma eqb_neq (a b : str) : eqb a b = false <-> a <> b.
Proof.
  rewrite <- eqb_eq. destruct (eqb a b); split; intros; congruence.
Qed.

(** A blank is its own lowercase and is neither [e] nor [q]. *)
Lemma isspace_not_e_q (c : char) :
  isspace c = true ->
  lower_char c = [c] /\ c <> 101%N /\ c <> 113%N.
Proof.
  unfold isspace, lower_char.
  rewrite !orb_true_iff, !andb_true_iff, !N.leb_le, !N.eqb_eq. intros H.
  destruct ((65 <=? c)%N && (c <=? 90)%N) eqn:Hcap.
  { apply andb_prop in Hcap as [H1 H2]. apply N.leb_le in H1, H2. lia. }
  destruct (N.eqb_spec c 0x130); [lia|].
  destruct (N.eqb_spec c 0x212A); [lia|].
  repeat split; lia.
Qed.

Lemma lstrip_blank (s : str) :
  whitespace_only s = true -> lstrip s = [].
Proof.
  induction s as [|c s IH]; simpl; [reflexivity|].
  intros H. apply andb_prop in H as [Hc Hs]. rewrite Hc. auto.
Qed.

Lemma strip_blank (s : str) :
  whitespace_only s = true -> strip s = [].
Proof.
  intros H. unfold strip. now rewrite lstrip_blank.
Qed.

Lemma strip_empty_blank (s : str) :
  strip s = [] -> whitespace_only s = true.
Proof.
  unfold strip. induction s as [|c s IH]; simpl; [reflexivity|].
  destruct (isspace c) eqn:Hc; simpl.
  - exact IH.
  - rewrite Hc. simpl. discriminate.
Qed.

(** The guard [not query.strip()] holds exactly for the strings that are
    empty or all blanks. *)
Lemma truthy_strip (s : str) :
  truthy (strip s) = false <-> whitespace_only s = true.
Proof.
  unfold truthy. split.
  - intros H. apply negb_false_iff in H.
    apply strip_empty_blank. now destruct (strip s).
  - intros H. now rewrite strip_blank.
Qed.

Lemma lstrip_head (s : str) :
  lstrip s = [] \/
  exists c s', lstrip s = c :: s' /\ isspace c = false.
Proof.
  induction s as [|c s IH]; simpl; [now left|].
  destruct (isspace c) eqn:Hc; [exact IH|].
  right. now exists c, s.
Qed.

Lemma rstrip_idem (s : str) : rstrip (rstrip s) = rstrip s.
Proof.
  induction s as [|c s IH]; simpl; [reflexivity|].
  destruct (isspace c && is_empty (rstrip s)) eqn:Hc; [reflexivity|].
  simpl. now rewrite IH, Hc.
Qed.

(** Stripping a stripped string changes nothing. *)
Lemma strip_idem (s : str) : strip (strip s) = strip s.
Proof.
  unfold strip.
  destruct (lstrip_head s) as [-> | [c [s' [-> Hc]]]]; [reflexivity|].
  cbn [rstrip]. rewrite Hc. cbn [andb lstrip]. rewrite Hc.
  change (rstrip (c :: rstrip s') = c :: rstrip s').
  cbn [rstrip]. rewrite Hc. cbn [andb]. now rewrite rstrip_idem.
Qed.

Lemma prefix_iff (p s : str) : prefix p s = true <-> exists q, s = p ++ q.
Proof.
  revert s. induction p as [|x p IH]; intros s; simpl.
  - split; [intros _; now exists s | reflexivity].
  - destruct s as [|y s].
    + split; [discriminate | intros [q H]; discriminate].
    + rewrite andb_true_iff, N.eqb_eq, IH. split.
      * intros [-> [q ->]]. now exists q.
      * intros [q H]. inversion H. split; [reflexivity | now exists q].
Qed.

(** [s.endswith(p)] holds exactly when [s] is some string followed by
    [p]. *)
Lemma endswith_iff (s p : str) :
  endswith s p = true <-> exists pre, s = pre ++ p.
Proof.
  unfold endswith. rewrite prefix_iff. split.
  - intros [q H]. exists (rev q).
    rewrite <- (rev_involutive s), H, rev_app_distr, rev_involutive.
    reflexivity.
  - intros [pre ->]. exists (rev pre). now rewrite rev_app_distr.
Qed.

End PyStrFacts.
Section TableFacts.

Context {E : Engine}.

Lemma same_key_iff (a b : row) : same_key a b = true <-> key a = key b.
Proof.
  unfold same_key, key. rewrite andb_true_iff, PyStrFacts.eqb_eq, Z.eqb_eq.
  split; [intros [-> ->]; reflexivity | intros H; inversion H; auto].
Qed.

Lemma has_key_iff (t : table) (r : row) :
  has_key t r = true <-> In (key r) (map key t).
Proof.
  unfold has_key. rewrite existsb_exists, in_map_iff.
  split; intros [x [H1 H2]]; exists x.
  - apply same_key_iff in H2. auto.
  - split; [tauto|]. apply same_key_iff. now destruct H1.
Qed.

Lemma has_key_false (t : table) (r : row) :
  has_key t r = false <-> ~ In (key r) (map key t).
Proof.
  rewrite <- has_key_iff. destruct (has_key t r); split; intros; congruence.
Qed.

Lemma insert_present (t : table) (r : row) :
  has_key t r = true -> insert_or_ignore t r = t.
Proof. unfold insert_or_ignore. now intros ->. Qed.

Lemma insert_fresh (t : table) (r : row) :
  has_key t r = false -> insert_or_ignore t r = t ++ [r].
Proof. unfold insert_or_ignore. now intros ->. Qed.

Lemma insert_extends (t : table) (r : row) :
  exists added, insert_or_ignore t r = t ++ added /\ (length added <= 1)%nat.
Proof.
  unfold insert_or_ignore. destruct (has_key t r).
  - exists []. rewrite app_nil_r. auto.
  - exists [r]. auto.
Qed.

Lemma has_key_insert (t : table) (r x : row) :
  has_key t x = true -> has_key (insert_or_ignore t r) x = true.
Proof.
  destruct (insert_extends t r) as [added [-> _]].
  unfold has_key. rewrite existsb_app. now intros ->.
Qed.

Lemma has_key_executemany (data : list row) (t : table) (x : row) :
  has_key t x = true -> has_key (executemany t data) x = true.
Proof.
  unfold executemany. revert t.
  induction data as [|r data IH]; simpl; intros t H; [assumption|].
  apply IH. now apply has_key_insert.
Qed.

Lemma unique_keys_insert (t : table) (r : row) :
  unique_keys t -> unique_keys (insert_or_ignore t r).
Proof.
  unfold insert_or_ignore, unique_keys. intros H.
  destruct (has_key t r) eqn:Hk; [assumption|].
  rewrite map_app. simpl.
  apply has_key_false in Hk.
  apply NoDup_rev in H. rewrite <- (rev_involutive (map key t ++ [key r])).
  apply NoDup_rev. rewrite rev_app_distr. simpl.
  constructor; [|assumption]. now rewrite <- in_rev.
Qed.

Lemma unique_keys_executemany (data : list row) (t : table) :
  unique_keys t -> unique_keys (executemany t data).
Proof.
  unfold executemany. revert t.
  induction data as [|r data IH]; simpl; intros t H; [assumption|].
  apply IH. now apply unique_keys_insert.
Qed.

Lemma executemany_app (t : table) (d1 d2 : list row) :
  executemany t (d1 ++ d2) = executemany (executemany t d1) d2.
Proof. unfold executemany. apply fold_left_app. Qed.

(** A bulk insert only appends, at most one row per tuple. *)
Lemma executemany_extends (data : list row) (t : table) :
  exists added,
    executemany t data = t ++ added /\ (length added <= length data)%nat.
Proof.
  unfold executemany. revert t.
  induction data as [|r data IH]; simpl; intros t.
  - exists []. rewrite app_nil_r. auto.
  - destruct (insert_extends t r) as [a1 [-> H1]].
    destruct (IH (t ++ a1)) as [a2 [-> H2]].
    exists (a1 ++ a2). rewrite app_assoc, length_app. split; [reflexivity|lia].
Qed.

(** Tuples whose keys are all present change nothing. *)
Lemma executemany_present (data : list row) (t : table) :
  (forall r, In r data -> has_key t r = true) -> executemany t data = t.
Proof.
  unfold executemany.
  induction data as [|r data IH]; simpl; intros H; [reflexivity|].
  rewrite insert_present by auto. auto.
Qed.

(** Tuples with new, pairwise different keys are all appended. *)
Lemma executemany_fresh (data : list row) (t : table) :
  NoDup (map key data) ->
  (forall r, In r data -> has_key t r = false) ->
  executemany t data = t ++ data.
Proof.
  unfold executemany. revert t.
  induction data as [|r data IH]; simpl; intros t Hnd Hf.
  - now rewrite app_nil_r.
  - inversion Hnd as [|k ks Hk Hnd']; subst.
    rewrite insert_fresh by auto.
    rewrite IH; [now rewrite <- app_assoc | assumption |].
    intros x Hx. apply has_key_false. rewrite map_app, in_app_iff. simpl.
    intros [Hin | [Heq | []]].
    + apply has_key_iff in Hin. rewrite Hf in Hin by auto. discriminate.
    + apply Hk. rewrite Heq. now apply in_map.
Qed.

Lemma reachable_executemany (data : list row) (t : table) :
  reachable t -> reachable (executemany t data).
Proof.
  unfold executemany. revert t.
  induction data as [|r data IH]; simpl; intros t H; [assumption|].
  apply IH. now constructor.
Qed.

Lemma reachable_unique (t : table) : reachable t -> unique_keys t.
Proof.
  induction 1 as [|t r _ IH].
  - constructor.
  - now apply unique_keys_insert.
Qed.

(** Under the key constraint, rows of one key are one row. *)
Lemma unique_keys_inj (t : table) (a b : row) :
  unique_keys t -> In a t -> In b t -> key a = key b -> a = b.
Proof.
  unfold unique_keys. induction t as [|x t IH]; simpl; [tauto|].
  intros Hnd Ha Hb Hk. inversion Hnd as [|k ks Hx Hnd']; subst.
  destruct Ha as [-> | Ha], Hb as [-> | Hb]; auto.
  - exfalso. apply Hx. rewrite Hk. now apply in_map.
  - exfalso. apply Hx. rewrite <- Hk. now apply in_map.
Qed.

Lemma has_key_same (t : table) (a b : row) :
  key a = key b -> has_key t a = has_key t b.
Proof.
  intros H. unfold has_key. apply eq_true_iff_eq.
  change (has_key t a = true <-> has_key t b = true).
  now rewrite !has_key_iff, H.
Qed.

Lemma has_key_insert_eq (t : table) (x r : row) :
  has_key (insert_or_ignore t x) r = has_key t r || same_key r x.
Proof.
  unfold insert_or_ignore. destruct (has_key t x) eqn:Hx.
  - destruct (same_key r x) eqn:Hrx; [|now rewrite orb_false_r].
    apply same_key_iff in Hrx. rewrite (has_key_same t Hrx), Hx. reflexivity.
  - unfold has_key. rewrite existsb_app. simpl. now rewrite orb_false_r.
Qed.

Lemma has_key_executemany_eq (data : list row) :
  forall t r,
    has_key (executemany t data) r = has_key t r || existsb (same_key r) data.
Proof.
  unfold executemany.
  induction data as [|x data IH]; intros t r; simpl.
  - now rewrite orb_false_r.
  - now rewrite IH, has_key_insert_eq, orb_assoc.
Qed.

Lemma key_test_iff (k : str * Z) (r : row) :
  key_test k r = true <-> key r = k.
Proof.
  unfold key_test, key. rewrite andb_true_iff, PyStrFacts.eqb_eq, Z.eqb_eq.
  destruct k as [f n]; simpl. split; [intros [-> ->]; reflexivity|].
  intros H; inversion H; auto.
Qed.

Lemma find_over_app {A : Type} (f : A -> bool) (l1 l2 : list A) :
  find f (l1 ++ l2) = match find f l1 with
                      | Some x => Some x
                      | None => find f l2
                      end.
Proof.
  induction l1 as [|a l1 IH]; simpl; [reflexivity|].
  now destruct (f a).
Qed.

Lemma find_key_has_key (t : table) (r : row) :
  has_key t r = true <-> find_key (key r) t <> None.
Proof.
  rewrite has_key_iff, in_map_iff. unfold find_key. 
  split.
  - intros [x [Hk Hx]] Hnone.
    pose proof (find_none _ _ Hnone x Hx) as Hf.
    apply key_test_iff in Hk. congruence.
  - destruct (find (key_test (key r)) t) as [x|] eqn:Hf; [|congruence].
    intros _. apply find_some in Hf as [Hx Hk].
    exists x. split; [now apply key_test_iff | assumption].
Qed.

Lemma find_key_executemany (data : list row) :
  forall t k, find_key k (executemany t data) = find_key k (t ++ data).
Proof.
  unfold executemany.
  induction data as [|x data IH]; intros t k; simpl.
  - now rewrite app_nil_r.
  - rewrite IH. unfold insert_or_ignore.
    destruct (has_key t x) eqn:Hx.
    + unfold find_key. rewrite !find_over_app.
      destruct (find (key_test k) t) as [y|] eqn:Hf; [reflexivity|].
      simpl. destruct (key_test k x) eqn:Hkx; [|reflexivity].
      exfalso. apply key_test_iff in Hkx. subst k.
      apply find_key_has_key in Hx. apply Hx. exact Hf.
    + now rewrite <- app_assoc.
Qed.

(** What a bulk insert appends: tuples of the batch whose key the table did
    not have, no two with one key, and one for every new key of the
    batch. *)
Lemma executemany_added (data : list row) :
  forall t,
    exists added,
      executemany t data = t ++ added /\
      (length added <= length data)%nat /\
      NoDup (map key added) /\
      (forall r, In r added -> In r data /\ has_key t r = false) /\
      (forall r, In r data -> has_key t r = false ->
                 In (key r) (map key added)).
Proof.
  unfold executemany.
  induction data as [|x data IH]; intros t; simpl.
  - exists []. rewrite app_nil_r.
    split; [reflexivity|]. split; [apply Nat.le_refl|].
    split; [constructor|]. split; intros r [].
  - unfold insert_or_ignore at 2. destruct (has_key t x) eqn:Hx.
    + destruct (IH t) as [added [Heq [Hlen [Hnd [Hin Hcov]]]]].
      exists added.
      split; [assumption|]. split; [lia|]. split; [assumption|]. split.
      * intros r Hr. destruct (Hin r Hr) as [Hd Hk].
        split; [now right | assumption].
      * intros r [<- | Hr] Hk; [congruence | now apply Hcov].
    + destruct (IH (t ++ [x])) as [added [Heq [Hlen [Hnd [Hin Hcov]]]]].
      assert (Hsplit : forall r, has_key (t ++ [x]) r
                                 = has_key t r || same_key r x).
      { intros r. unfold has_key. rewrite existsb_app. simpl.
        now rewrite orb_false_r. }
      exists (x :: added). rewrite Heq, <- app_assoc.
      split; [reflexivity|]. split; [simpl; lia|]. split; [|split].
      * simpl. constructor; [|assumption].
        rewrite in_map_iff. intros [r [Hk Hr]].
        destruct (Hin r Hr) as [_ Hnew]. rewrite Hsplit in Hnew.
        apply orb_false_iff in Hnew as [_ Hnew].
        apply same_key_iff in Hk. congruence.
      * intros r [<- | Hr].
        -- split; [now left | assumption].
        -- destruct (Hin r Hr) as [Hd Hnew]. rewrite Hsplit in Hnew.
           apply orb_false_iff in Hnew as [Hnew _].
           split; [now right | assumption].
      * intros r Hr Hk. destruct (same_key r x) eqn:Hrx.
        -- left. apply same_key_iff in Hrx. now symmetry.
        -- right. apply Hcov.
           ++ destruct Hr as [Heq' | Hr]; [|assumption]. subst r.
              rewrite (proj2 (same_key_iff x x) eq_refl) in Hrx. discriminate.
           ++ rewrite Hsplit, Hk, Hrx. reflexivity.
Qed.

(** C2: [(filename, line_number)] identifies a record.  On every table the
    scripts can build no two rows share a key.  Inserting a row whose key
    the table has leaves the table as it is, and a row with a new key is
    appended.  A bulk insert is never cut short: after it the table has a
    row for the key of every tuple of the batch; what it appended are
    tuples of the batch with keys the table did not have; a tuple whose key
    the table or an earlier tuple has counts for nothing, the others being
    inserted as if it were not there; a key selects the first row that had
    it among the old rows followed by the batch, so the old rows are still
    there, unchanged and in place (first write wins); and the table still
    has no two rows with one key. *)
Theorem key_identifies_record (t : table) :
  reachable t ->
  unique_keys t /\
  (forall r, In (key r) (map key t) -> insert_or_ignore t r = t) /\
  (forall r, ~ In (key r) (map key t) -> insert_or_ignore t r = t ++ [r]) /\
  (forall data,
      reachable (executemany t data) /\
      unique_keys (executemany t data) /\
      (exists added,
          executemany t data = t ++ added /\
          (forall r, In r added -> In r data /\ ~ In (key r) (map key t))) /\
      (forall r, In r data -> In (key r) (map key (executemany t data))) /\
      (forall k, find_key k (executemany t data) = find_key k (t ++ data)) /\
      (forall before r after,
          data = before ++ r :: after ->
          In (key r) (map key (t ++ before)) ->
          executemany t data = executemany t (before ++ after)) /\
      (forall old r, In old t -> In r (executemany t data) ->
                     key r = key old -> r = old)).
Proof.
  intros Hr. pose proof (reachable_unique Hr) as Hu.
  split; [assumption|].
  split; [intros r H; apply insert_present; now apply has_key_iff|].
  split; [intros r H; apply insert_fresh; now apply has_key_false|].
  intros data.
  pose proof (unique_keys_executemany data Hu) as Hu'.
  destruct (executemany_added data t) as [added [Heq [_ [_ [Hin _]]]]].
  split; [now apply reachable_executemany|]. split; [assumption|].
  split; [|split; [|split; [|split]]].
  - exists added. split; [assumption|].
    intros r H. destruct (Hin r H) as [Hd Hk].
    split; [assumption | now apply has_key_false].
  - intros r H. apply has_key_iff.
    rewrite has_key_executemany_eq. apply orb_true_iff. right.
    apply existsb_exists. exists r. split; [assumption|].
    now apply same_key_iff.
  - intros k. apply find_key_executemany.
  - intros before r after -> Hk.
    rewrite !executemany_app. unfold executemany at 1; simpl.
    fold (executemany (insert_or_ignore (executemany t before) r) after).
    rewrite insert_present; [reflexivity|].
    apply has_key_iff in Hk. unfold has_key in Hk.
    rewrite existsb_app in Hk.
    rewrite has_key_executemany_eq. exact Hk.
  - intros old r Hold Hr' Hkey.
    apply (unique_keys_inj Hu'); auto.
    rewrite Heq. apply in_or_app. now left.
Qed.

Local Open Scope Z_scope.

(** C9: a batch insertion appends rows to the table, and its two counts
    are read off them: the inserted count is the number of rows appended,
    which is the growth of the table's row count, and the skipped count is
    the number of tuples of the batch less that number, so that the two add
    up to the size of the batch and neither is negative.  The rows appended
    are tuples of the batch whose key the table did not have, one for each
    such key. *)
Theorem insert_batch_counts (t : table) (data : list row) :
  let '(t', inserted_count, skipped_count) := insert_batch t data in
  exists added,
    t' = (t ++ added)%list /\
    inserted_count = Z.of_nat (length added) /\
    skipped_count = Z.of_nat (length data) - Z.of_nat (length added) /\
    inserted_count + skipped_count = Z.of_nat (length data) /\
    Z.of_nat (length t') - Z.of_nat (length t) = inserted_count /\
    0 <= inserted_count <= Z.of_nat (length data) /\
    0 <= skipped_count <= Z.of_nat (length data) /\
    NoDup (map key added) /\
    (forall r, In r added -> In r data /\ ~ In (key r) (map key t)) /\
    (forall r, In r data -> ~ In (key r) (map key t) ->
               In (key r) (map key added)).
Proof.
  unfold insert_batch, count.
  destruct (executemany_added data t) as [added [-> [Hlen [Hnd [Hin Hcov]]]]].
  exists added. rewrite length_app.
  repeat split; try lia; try assumption.
  - now apply Hin.
  - apply has_key_false. now apply Hin.
  - intros r Hr Hk. apply Hcov; [assumption | now apply has_key_false].
Qed.

End TableFacts.

(** ** Lookup by key *)

Section KeyFacts.

Context {E : Engine}.

(** X5: first write wins, as a lookup.  After a bulk insert a key selects
    the first row with that key among the old rows followed by the batch:
    a key an old row had still selects that row, and the key of every tuple
    of the batch selects a row. *)
Theorem first_write_wins (t : table) (data : list row) (k : str * Z) :
  find_key k (executemany t data) = find_key k (t ++ data) /\
  (forall r, find_key k t = Some r ->
             find_key k (executemany t data) = Some r) /\
  (forall r, In r data ->
             exists r', find_key (key r) (executemany t data) = Some r' /\
                        key r' = key r).
Proof.
  split; [apply find_key_executemany|]. split.
  - intros r Hr. rewrite find_key_executemany. unfold find_key in *.
    rewrite find_over_app. now rewrite Hr.
  - intros r Hr.
    assert (Hk : has_key (executemany t data) r = true).
    { rewrite has_key_executemany_eq. apply orb_true_iff. right.
      apply existsb_exists. exists r. split; [assumption|].
      now apply same_key_iff. }
    apply find_key_has_key in Hk.
    destruct (find_key (key r) (executemany t data)) as [r'|] eqn:Hf;
      [|congruence].
    exists r'. split; [reflexivity|].
    unfold find_key in Hf. apply find_some in Hf as [_ Hf].
    now apply key_test_iff.
Qed.

Lemma filter_partition_length {A : Type} (f : A -> bool) (l : list A) :
  (length (filter f l) + length (filter (fun x => negb (f x)) l) = length l)%nat.
Proof.
  induction l as [|a l IH]; simpl; [reflexivity|].
  destruct (f a); simpl; lia.
Qed.

Lemma executemany_distinct (data : list row) :
  forall t,
    NoDup (map key data) ->
    executemany t data = t ++ filter (fun r => negb (has_key t r)) data.
Proof.
  unfold executemany.
  induction data as [|x data IH]; intros t Hnd; simpl.
  - now rewrite app_nil_r.
  - inversion Hnd as [|k ks Hx Hnd']; subst.
    rewrite IH by assumption. unfold insert_or_ignore.
    destruct (has_key t x) eqn:Hk; simpl; [reflexivity|].
    rewrite <- app_assoc. simpl. do 2 f_equal.
    apply filter_ext_in. intros r Hr. f_equal.
    unfold has_key at 1. rewrite existsb_app. simpl. rewrite orb_false_r.
    destruct (same_key r x) eqn:Hrx; [|now rewrite orb_false_r].
    exfalso. apply Hx. apply same_key_iff in Hrx. rewrite <- Hrx.
    now apply in_map.
Qed.

Local Open Scope Z_scope.

(** X6: for a batch whose keys are pairwise different, the bulk insert
    appends exactly the tuples whose key the table did not have, in the
    order of the batch; the inserted count is their number and the skipped
    count is the number of tuples whose key the table had. *)
Theorem insert_batch_distinct (t : table) (data : list row) :
  NoDup (map key data) ->
  insert_batch t data
  = ((t ++ filter (fun r => negb (has_key t r)) data)%list,
     Z.of_nat (length (filter (fun r => negb (has_key t r)) data)),
     Z.of_nat (length (filter (has_key t) data))).
Proof.
  intros Hnd. unfold insert_batch, count.
  rewrite executemany_distinct by assumption.
  pose proof (filter_partition_length (has_key t) data) as Hlen.
  rewrite length_app. repeat f_equal; lia.
Qed.

End KeyFacts.

(** ** Ingestion *)

Section IngestFacts.

Context {E : Engine} {M : Embedder E}.

Local Open Scope Z_scope.

Lemma sorted_from_lower (i j : Z) (l : list Z) :
  i <= j -> StronglySorted Z.lt (j :: l) -> StronglySorted Z.lt (i :: l).
Proof.
  intros Hij H. apply StronglySorted_inv in H as [Hs Hf].
  constructor; [assumption|].
  eapply Forall_impl; [|exact Hf]. simpl. intros; lia.
Qed.

(** The line numbers [parse_file] returns grow strictly: they are the
    positions, counted from 1, of the lines kept. *)
Lemma parse_loop_line_numbers (file_content : list str) :
  forall i a t s,
    StronglySorted Z.lt
      (i :: map fst (snd (parse_loop i file_content a t s))).
Proof.
  induction file_content as [|line rest IH]; intros i a t s; simpl.
  - repeat constructor.
  - destruct (PyStr.contains START_MARKER (PyStr.upper line)).
    + apply sorted_from_lower with (j := i + 1); [lia | apply IH].
    + destruct (PyStr.contains END_MARKER (PyStr.upper line)); simpl.
      * repeat constructor.
      * match goal with
        | |- context [parse_loop (i + 1) rest ?a' ?t' s] =>
            specialize (IH (i + 1) a' t' s);
            destruct (parse_loop (i + 1) rest a' t' s) as [[a0 t0] ls]
        end.
        simpl in *.
        destruct (s && PyStr.truthy (PyStr.strip line))%bool; simpl.
        -- constructor; [assumption|].
           constructor; [lia|].
           apply StronglySorted_inv in IH as [_ Hf].
           eapply Forall_impl; [|exact Hf]. simpl. intros; lia.
        -- apply sorted_from_lower with (j := i + 1); [lia | assumption].
Qed.

Lemma sorted_lt_NoDup (l : list Z) : StronglySorted Z.lt l -> NoDup l.
Proof.
  induction 1 as [|x l _ IH Hf]; constructor; [|assumption].
  intros Hin. rewrite Forall_forall in Hf. specialize (Hf x Hin). lia.
Qed.

Lemma parse_file_NoDup (file_content : list str) :
  NoDup (map fst (snd (parse_file file_content))).
Proof.
  unfold parse_file.
  pose proof (parse_loop_line_numbers file_content 0 (py "Unknown") (py "Unknown") false) as H.
  apply StronglySorted_inv in H as [H _]. now apply sorted_lt_NoDup.
Qed.

(** With one vector per content line the loop that fills
    [data_to_insert] finds every index in range. *)
Lemma data_to_insert_from (fname au ti : str) :
  forall (cl pre : list (Z * str)) (embs pre_e : list (list num)),
    length pre = length pre_e ->
    length cl = length embs ->
    data_to_insert fname au ti (map fst (pre ++ cl)) (pre_e ++ embs)
                   (length pre) (map snd cl)
    = Some (rows_of fname au ti cl embs).
Proof.
  induction cl as [|[ln text] cl IH]; intros pre embs pre_e Hpre Hlen.
  - reflexivity.
  - destruct embs as [|e embs]; [discriminate|]. simpl in Hlen.
    cbn [map snd data_to_insert].
    assert (Hln : nth_error (map fst (pre ++ (ln, text) :: cl)) (length pre)
                  = Some ln).
    { rewrite map_app, nth_error_app2 by (rewrite length_map; lia).
      now rewrite length_map, Nat.sub_diag. }
    assert (He : nth_error (pre_e ++ e :: embs) (length pre) = Some e).
    { rewrite nth_error_app2 by lia. now rewrite Hpre, Nat.sub_diag. }
    rewrite Hln, He.
    specialize (IH (pre ++ [(ln, text)]) embs (pre_e ++ [e])).
    rewrite !length_app in IH. cbn [length] in IH.
    rewrite <- !app_assoc in IH. cbn [app] in IH.
    replace (length pre + 1)%nat with (S (length pre)) in IH by lia.
    rewrite IH by lia. reflexivity.
Qed.

Lemma data_to_insert_ok (fname au ti : str) (cl : list (Z * str))
      (embs : list (list num)) :
  length embs = length cl ->
  data_to_insert fname au ti (map fst cl) embs 0 (map snd cl)
  = Some (rows_of fname au ti cl embs).
Proof.
  intros H. now apply (data_to_insert_from fname au ti cl [] embs []).
Qed.

Lemma rows_of_keys (fname au ti : str) :
  forall (cl : list (Z * str)) (embs : list (list num)),
    length embs = length cl ->
    map key (rows_of fname au ti cl embs) = map (fun p => (fname, fst p)) cl.
Proof.
  unfold rows_of.
  induction cl as [|p cl IH]; intros [|e embs] H; try discriminate; simpl.
  - reflexivity.
  - f_equal. apply IH. simpl in H. lia.
Qed.

Lemma rows_of_length (fname au ti : str) (cl : list (Z * str))
      (embs : list (list num)) :
  length embs = length cl -> length (rows_of fname au ti cl embs) = length cl.
Proof.
  intros H. unfold rows_of. rewrite length_map, length_combine. lia.
Qed.

Lemma rows_of_filename (fname au ti : str) (cl : list (Z * str))
      (embs : list (list num)) (r : row) :
  In r (rows_of fname au ti cl embs) -> filename r = fname.
Proof.
  unfold rows_of. rewrite in_map_iff. intros [p [<- _]]. reflexivity.
Qed.

Lemma rows_of_NoDup (fname au ti : str) (cl : list (Z * str))
      (embs : list (list num)) :
  length embs = length cl ->
  NoDup (map fst cl) ->
  NoDup (map key (rows_of fname au ti cl embs)).
Proof.
  intros Hlen Hnd. rewrite rows_of_keys by assumption. clear Hlen.
  induction cl as [|p cl IH]; simpl in *; [constructor|].
  inversion Hnd as [|n ns Hn Hnd']; subst.
  constructor; [|now apply IH].
  rewrite in_map_iff. intros [q [Hq Hin]]. apply Hn.
  injection Hq as Hfst. rewrite <- Hfst. now apply in_map.
Qed.

(** Two printed reports are the same when their numbers are. *)
Ltac same_messages :=
  repeat match goal with
         | |- _ ++ _ = _ ++ _ => f_equal
         | |- _ :: _ = _ :: _ => f_equal
         | |- MsgInserted _ _ = MsgInserted _ _ => f_equal
         | |- MsgLines _ = MsgLines _ => f_equal
         end;
  try reflexivity; try lia.

(** The loop body on a file with content that the model embeds. *)
Lemma process_file_embedded (st : state) (fname : str)
      (file_content : list str) (embs : list (list num))
      (au ti : str) (cl : list (Z * str)) :
  parse_file file_content = (au, ti, cl) ->
  cl <> [] ->
  encode_batch (map snd cl) = Some embs ->
  length embs = length cl ->
  let data := rows_of fname au ti cl embs in
  let t' := executemany (db st) data in
  let inserted_count := count t' - count (db st) in
  let skipped_count := Z.of_nat (length cl) - inserted_count in
  process_file st fname (Some file_content)
  = (mk_state t'
       (mk_totals (total_files_loaded (tot st) + 1)
                  (total_lines_processed (tot st) + Z.of_nat (length cl))
                  (total_lines_inserted (tot st) + inserted_count)
                  (total_lines_skipped (tot st) + skipped_count))
       (out st ++ [MsgProcessing fname; MsgLines (Z.of_nat (length cl));
                   MsgInserted inserted_count skipped_count]),
     None).
Proof.
  unfold process_file. intros -> Hne Henc Hlen.
  destruct cl as [|c cl]; [congruence|].
  rewrite Henc, data_to_insert_ok by assumption.
  unfold insert_batch. rewrite rows_of_length by assumption.
  cbn [total_files_loaded total_lines_processed total_lines_inserted
       total_lines_skipped].
  rewrite <- !app_assoc. reflexivity.
Qed.

(** The loop body on a file without content lines. *)
Lemma process_file_no_content (st : state) (fname : str)
      (file_content : list str) :
  snd (parse_file file_content) = [] ->
  process_file st fname (Some file_content)
  = (mk_state (db st)
       (mk_totals (total_files_loaded (tot st) + 1)
                  (total_lines_processed (tot st))
                  (total_lines_inserted (tot st))
                  (total_lines_skipped (tot st)))
       (out st ++ [MsgProcessing fname; MsgLines 0; MsgNoContent]),
     None).
Proof.
  unfold process_file.
  destruct (parse_file file_content) as [[au ti] cl]. simpl.
  intros ->. rewrite <- !app_assoc. reflexivity.
Qed.

(** C1: ingesting a document with N content lines into a table that has no
    row of that document inserts N rows and counts N inserted and 0
    skipped; ingesting the same document again leaves the table as it is
    and counts 0 inserted and N skipped.  The counts are those added to
    the run's totals and, when the document has content, those printed
    for the file. *)
Theorem reingest_counts (st : state) (fname : str)
        (file_content : list str) (embeddings : list (list num)) :
  let content_lines := snd (parse_file file_content) in
  let N := Z.of_nat (length content_lines) in
  (content_lines <> [] ->
   encode_batch (map snd content_lines) = Some embeddings) ->
  length embeddings = length content_lines ->
  (forall r, In r (db st) -> filename r <> fname) ->
  exists st1 st2,
    process_file st fname (Some file_content) = (st1, None) /\
    process_file st1 fname (Some file_content) = (st2, None) /\
    count (db st1) = count (db st) + N /\
    total_lines_inserted (tot st1) = total_lines_inserted (tot st) + N /\
    total_lines_skipped (tot st1) = total_lines_skipped (tot st) /\
    db st2 = db st1 /\
    total_lines_inserted (tot st2) = total_lines_inserted (tot st1) /\
    total_lines_skipped (tot st2) = total_lines_skipped (tot st1) + N /\
    (content_lines <> [] ->
     out st1 = out st ++ [MsgProcessing fname; MsgLines N; MsgInserted N 0] /\
     out st2 = out st1 ++ [MsgProcessing fname; MsgLines N; MsgInserted 0 N]).
Proof.
  intros content_lines N Henc Hlen Hfresh.
  destruct content_lines as [|c cl] eqn:Hcl.
  - (* no content: nothing is embedded or inserted *)
    subst content_lines.
    eexists. eexists.
    rewrite !process_file_no_content by assumption. simpl.
    repeat split; try reflexivity; try (subst N; simpl; lia);
      intros; congruence.
  - pose proof (parse_file_NoDup file_content) as Hnd.
    subst content_lines.
    destruct (parse_file file_content) as [[au ti] cl0] eqn:Hparse.
    cbn [snd] in *. subst cl0.
    assert (Hne : c :: cl <> []) by congruence.
    specialize (Henc Hne).
    pose proof (fun st => @process_file_embedded st fname file_content
                            embeddings au ti (c :: cl) Hparse Hne Henc Hlen)
      as Hrun.
    set (data := rows_of fname au ti (c :: cl) embeddings) in *.
    assert (Hins : executemany (db st) data = db st ++ data).
    { apply executemany_fresh.
      - now apply rows_of_NoDup.
      - intros r Hr. apply has_key_false. rewrite in_map_iff.
        intros [x [Hk Hx]]. apply (Hfresh x Hx).
        apply rows_of_filename in Hr. unfold key in Hk. congruence. }
    assert (Hagain : executemany (db st ++ data) data = db st ++ data).
    { apply executemany_present. intros r Hr. apply has_key_iff.
      apply in_map. apply in_or_app. now right. }
    assert (Hdl : length data = length (c :: cl))
      by now apply rows_of_length.
    eexists. eexists.
    split; [apply Hrun|].
    split; [apply Hrun|].
    cbn [db tot out total_lines_inserted total_lines_skipped].
    fold data. rewrite Hins, Hagain. unfold count.
    rewrite length_app, Hdl.
    assert (HN : N = Z.of_nat (length (c :: cl))) by reflexivity.
    repeat split; try lia; same_messages.
Qed.

(** The loop body only ever changes the table by a bulk insert. *)
Lemma process_file_db (st : state) (fname : str)
      (file : option (list str)) :
  exists data, db (fst (process_file st fname file)) = executemany (db st) data.
Proof.
  unfold process_file. destruct file as [file_content|]; [|now exists []].
  destruct (parse_file file_content) as [[au ti] cl].
  destruct cl as [|c cl]; [now exists []|].
  destruct (encode_batch (map snd (c :: cl))) as [embs|]; [|now exists []].
  destruct (data_to_insert fname au ti (map fst (c :: cl)) embs 0
                           (map snd (c :: cl))) as [data|]; [|now exists []].
  exists data. reflexivity.
Qed.

Lemma process_files_reachable (files : list (str * option (list str))) :
  forall st, reachable (db st) -> reachable (db (fst (process_files st files))).
Proof.
  induction files as [|[fname file] files IH]; simpl; intros st H; [assumption|].
  destruct (process_file_db st fname file) as [data Hdata].
  destruct (process_file st fname file) as [st' [e|]]; simpl in *;
    [|apply IH]; rewrite Hdata; now apply reachable_executemany.
Qed.

(** A run of prepare.py on a database file that is new, or was left by
    earlier runs, leaves a table without two rows of one key. *)
Lemma prepare_main_unique_keys (db0 : option table)
      (texts_dir : option (list (str * option (list str)))) :
  reachable (create_table db0) ->
  unique_keys (db (fst (prepare_main db0 texts_dir))).
Proof.
  intros H. apply reachable_unique. unfold prepare_main.
  destruct texts_dir as [entries|]; [|assumption].
  destruct (filter _ entries) as [|f files] eqn:Hf; [assumption|].
  now apply process_files_reachable.
Qed.

Lemma process_files_app (before : list (str * option (list str))) :
  forall st st1 rest,
    process_files st before = (st1, Completed) ->
    process_files st (before ++ rest) = process_files st1 rest.
Proof.
  induction before as [|[fname file] before IH]; simpl; intros st st1 rest H.
  - now inversion H.
  - destruct (process_file st fname file) as [st' [e|]]; [discriminate|].
    now apply IH.
Qed.

(** C7, as the code has it: when the model raises on the batch of a
    document with content, nothing of that document is written and
    nothing is counted for it, and the exception leaves the loop: the run
    ends there, whatever documents remain, and the rows of the documents
    before it stay as they were written. *)
Theorem embedder_failure_stops_run (st st1 : state)
        (before rest : list (str * option (list str)))
        (fname : str) (file_content : list str) :
  snd (parse_file file_content) <> [] ->
  encode_batch (map snd (snd (parse_file file_content))) = None ->
  process_files st before = (st1, Completed) ->
  exists st',
    process_files st (before ++ (fname, Some file_content) :: rest)
    = (st', Aborted EmbedderError) /\
    db st' = db st1 /\
    total_lines_inserted (tot st') = total_lines_inserted (tot st1) /\
    total_lines_skipped (tot st') = total_lines_skipped (tot st1).
Proof.
  intros Hne Henc Hbefore.
  erewrite process_files_app by exact Hbefore.
  simpl. unfold process_file.
  destruct (parse_file file_content) as [[au ti] cl]. simpl in *.
  destruct cl as [|c cl]; [congruence|].
  rewrite Henc. eexists. split; [reflexivity|]. simpl. auto.
Qed.

End IngestFacts.

(** ** Search *)

(** ** Search *)

Section SearchFacts.

Context {E : Engine}.

Lemma select_similarity_rows (t : table) (v : list num) :
  forall rows,
    select_similarity t v = Some rows ->
    map fst rows = t /\
    forall x, In x rows ->
              list_cosine_similarity (embedding (fst x)) v = Some (snd x).
Proof.
  induction t as [|r t IH]; simpl; intros rows H.
  - inversion H. split; [reflexivity | intros x []].
  - destruct (list_cosine_similarity (embedding r) v) as [s|] eqn:Hs;
      [|discriminate].
    destruct (select_similarity t v) as [rows'|]; [|discriminate].
    inversion H; subst. destruct (IH rows' eq_refl) as [Hm Hf].
    split; [simpl; now rewrite Hm|].
    intros x [<- | Hx]; [exact Hs | now apply Hf].
Qed.

Lemma select_similarity_defined (t : table) (v : list num) :
  (forall r, In r t -> list_cosine_similarity (embedding r) v <> None) ->
  exists rows, select_similarity t v = Some rows.
Proof.
  induction t as [|r t IH]; simpl; intros H.
  - now exists [].
  - destruct (list_cosine_similarity (embedding r) v) as [s|] eqn:Hs.
    + destruct IH as [rows ->]; [intros; apply H; auto|]. eauto.
    + exfalso. apply (H r); auto.
Qed.

Lemma select_similarity_raises (t : table) (v : list num) (r : row) :
  In r t -> list_cosine_similarity (embedding r) v = None ->
  select_similarity t v = None.
Proof.
  induction t as [|r' t IH]; simpl; [tauto|].
  intros [-> | Hin] Hr.
  - now rewrite Hr.
  - destruct (list_cosine_similarity (embedding r') v); [|reflexivity].
    now rewrite IH.
Qed.

Lemma Forall2_firstn {A B : Type} (R : A -> B -> Prop) (n : nat) :
  forall l1 l2, Forall2 R l1 l2 -> Forall2 R (firstn n l1) (firstn n l2).
Proof.
  induction n as [|n IH]; intros l1 l2 H; simpl; [constructor|].
  destruct H; constructor; auto.
Qed.

Lemma sorted_app_inv {A : Type} (R : A -> A -> Prop) (l1 l2 : list A) :
  StronglySorted R (l1 ++ l2) ->
  StronglySorted R l1 /\ StronglySorted R l2 /\
  forall x y, In x l1 -> In y l2 -> R x y.
Proof.
  induction l1 as [|a l1 IH]; simpl; intros H.
  - repeat split; [constructor | assumption | intros x y []].
  - apply StronglySorted_inv in H as [Hs Hf].
    destruct (IH Hs) as [H1 [H2 H3]]. rewrite Forall_forall in Hf.
    repeat split; [|assumption|].
    + constructor; [assumption|]. rewrite Forall_forall.
      intros z Hz. apply Hf, in_or_app. now left.
    + intros x y [<- | Hx] Hy; [|now apply H3].
      apply Hf, in_or_app. now right.
Qed.

Lemma sorted_remove {A : Type} (R : A -> A -> Prop) (p q : list A) (x : A) :
  StronglySorted R (p ++ x :: q) -> StronglySorted R (p ++ q).
Proof.
  induction p as [|a p IH]; simpl; intros H;
    apply StronglySorted_inv in H as [Hs Hf].
  - assumption.
  - constructor; [auto|]. rewrite Forall_forall in *.
    intros z Hz. apply Hf. apply in_app_or in Hz as [Hz | Hz];
      apply in_or_app; [left | right; right]; assumption.
Qed.

Section Order.

Context {O : EngineOrder E}.

Lemma desc_total (x y : row * num) : desc x y \/ desc y x.
Proof. unfold desc. destruct (num_leb_total (snd x) (snd y)); auto. Qed.

Lemma desc_refl (x : row * num) : desc x x.
Proof. now destruct (desc_total x x). Qed.

Lemma desc_trans (x y z : row * num) : desc x y -> desc y z -> desc x z.
Proof. unfold desc. intros H1 H2. eapply num_leb_trans; eauto. Qed.

Lemma tie_refl (x : row * num) : tie x x.
Proof. split; apply desc_refl. Qed.

Lemma tie_sym (x y : row * num) : tie x y -> tie y x.
Proof. intros [H1 H2]; split; assumption. Qed.

Lemma tie_trans (x y z : row * num) : tie x y -> tie y z -> tie x z.
Proof.
  intros [H1 H2] [H3 H4]; split; eapply desc_trans; eauto.
Qed.

Lemma Forall2_tie_refl (l : list (row * num)) : Forall2 tie l l.
Proof. induction l; constructor; auto using tie_refl. Qed.

Lemma Forall2_tie_trans (l1 : list (row * num)) :
  forall l2 l3, Forall2 tie l1 l2 -> Forall2 tie l2 l3 -> Forall2 tie l1 l3.
Proof.
  induction l1 as [|x l1 IH]; intros l2 l3 H12 H23;
    inversion H12; subst; inversion H23; subst; constructor.
  - eapply tie_trans; eauto.
  - eapply IH; eauto.
Qed.

Lemma sorted_strongly (l : list (row * num)) :
  Sorted desc l -> StronglySorted desc l.
Proof.
  apply Sorted_StronglySorted. intros x y z. apply desc_trans.
Qed.

(** The insertion sort is one admissible [ORDER BY]. *)
Lemma insert_desc_perm (x : row * num) (l : list (row * num)) :
  Permutation (x :: l) (insert_desc x l).
Proof.
  induction l as [|y l IH]; simpl; [reflexivity|].
  destruct (num_leb (snd y) (snd x)); [reflexivity|].
  rewrite perm_swap. now constructor.
Qed.

Lemma insert_desc_sorted (x : row * num) (l : list (row * num)) :
  StronglySorted desc l -> StronglySorted desc (insert_desc x l).
Proof.
  induction 1 as [|y l Hs IH Hf]; simpl.
  - repeat constructor.
  - destruct (num_leb (snd y) (snd x)) eqn:Hyx.
    + constructor; [now constructor|].
      constructor; [exact Hyx|].
      eapply Forall_impl; [|exact Hf]. intros z Hz.
      apply desc_trans with y; assumption.
    + constructor; [assumption|].
      assert (Hxy : desc y x).
      { destruct (desc_total y x) as [H|H]; [assumption|].
        unfold desc in H. congruence. }
      rewrite Forall_forall in *. intros z Hz.
      apply (Permutation_in _ (Permutation_sym (insert_desc_perm x l))) in Hz.
      destruct Hz as [<- | Hz]; auto.
Qed.

Lemma sort_desc_order_by (rows : list (row * num)) :
  order_by_similarity_desc rows (sort_desc rows).
Proof.
  unfold order_by_similarity_desc, sort_desc.
  induction rows as [|x rows [IHp IHs]]; simpl.
  - split; constructor.
  - split.
    + rewrite <- insert_desc_perm. now constructor.
    + apply StronglySorted_Sorted, insert_desc_sorted.
      now apply sorted_strongly.
Qed.

Lemma search_is_result (t : table) (v : list num) (n : nat)
      (res : list (row * num)) :
  search t v n = Some res -> search_results t v n res.
Proof.
  unfold search, search_results.
  destruct (select_similarity t v) as [rows|]; [|discriminate].
  intros H; inversion H; subst.
  exists rows, (sort_desc rows).
  split; [reflexivity|]. split; [apply sort_desc_order_by | reflexivity].
Qed.

(** The elements a sorted list has between two ties are ties too, so the
    later one can be moved up to the earlier one's place. *)
Lemma tie_shift (x : row * num) (q : list (row * num)) :
  forall p y,
    (forall z, In z (y :: p) -> tie z x) ->
    Forall2 tie (y :: p ++ q) (p ++ x :: q).
Proof.
  induction p as [|z p IH]; intros y H; simpl.
  - constructor; [apply H; now left | apply Forall2_tie_refl].
  - constructor.
    + apply tie_trans with x; [apply H; now left|].
      apply tie_sym, H. right; now left.
    + apply IH. intros w Hw. apply H. now right.
Qed.

(** Two sortings of the same rows agree up to ties, place by place. *)
Lemma sorted_perm_tie (l1 : list (row * num)) :
  forall l2,
    StronglySorted desc l1 -> StronglySorted desc l2 ->
    Permutation l1 l2 -> Forall2 tie l1 l2.
Proof.
  induction l1 as [|x l1 IH]; intros l2 H1 H2 Hp.
  - apply Permutation_nil in Hp. subst. constructor.
  - destruct l2 as [|y l2];
      [apply Permutation_sym, Permutation_nil in Hp; discriminate|].
    assert (Hx : In x (y :: l2))
      by (eapply Permutation_in; [exact Hp | now left]).
    assert (Hy : In y (x :: l1))
      by (eapply Permutation_in; [exact (Permutation_sym Hp) | now left]).
    pose proof (StronglySorted_inv H1) as [Hs1 Hf1].
    pose proof (StronglySorted_inv H2) as [Hs2 Hf2].
    rewrite Forall_forall in Hf1, Hf2.
    assert (Hxy : tie x y).
    { split.
      - destruct Hy as [<- | Hy]; [apply desc_refl | now apply Hf1].
      - destruct Hx as [<- | Hx]; [apply desc_refl | now apply Hf2]. }
    constructor; [assumption|].
    destruct (in_split _ _ Hx) as [p [q Heq]].
    rewrite Heq in Hp, H2.
    apply Permutation_cons_app_inv in Hp.
    pose proof (IH _ Hs1 (sorted_remove _ _ _ H2) Hp) as Hrec.
    eapply Forall2_tie_trans; [exact Hrec|].
    destruct p as [|y' p]; simpl in Heq; inversion Heq; subst.
    + apply Forall2_tie_refl.
    + simpl. apply tie_shift.
      intros z Hz.
      apply tie_trans with y'; [|now apply tie_sym].
      destruct Hz as [<- | Hz]; [apply tie_refl|].
      split.
      * apply desc_trans with x; [|apply Hxy].
        destruct (@sorted_app_inv _ desc p (x :: q) Hs2) as [_ [_ H3]].
        apply H3; [assumption | now left].
      * apply Hf2. apply in_or_app. now left.
Qed.

End Order.

End SearchFacts.

Section SearchClaims.

Context {E : Engine} {O : EngineOrder E}.

(** C3: when the similarity is defined for every stored vector, the
    search returns a result, and every result has [min k (rows stored)]
    entries, in order of descending similarity, each a stored row with
    its similarity to the query; the rows left out are the rest of the
    table, each once, and none of them is more similar than a row
    returned.  With at most [k] rows stored the result holds every row
    exactly once, and on the empty table the result is empty and nothing
    is raised. *)
Theorem search_top_k (t : table) (v : list num) (k : nat) :
  (forall r, In r t -> list_cosine_similarity (embedding r) v <> None) ->
  (exists res, search_results t v k res) /\
  (forall res,
      search_results t v k res ->
      length res = Nat.min k (length t) /\
      StronglySorted desc res /\
      (forall x, In x res ->
                 In (fst x) t /\
                 list_cosine_similarity (embedding (fst x)) v = Some (snd x)) /\
      (exists rest,
          Permutation t (map fst res ++ map fst rest) /\
          (forall y, In y rest ->
                     list_cosine_similarity (embedding (fst y)) v = Some (snd y)) /\
          (forall x y, In x res -> In y rest -> desc x y)) /\
      ((length t <= k)%nat -> Permutation t (map fst res))) /\
  (t = [] -> search_results t v k [] /\ ~ search_raises t v).
Proof.
  intros Hdef.
  destruct (select_similarity_defined t v Hdef) as [rows Hrows].
  split; [|split].
  - exists (firstn k (sort_desc rows)).
    apply search_is_result. unfold search. now rewrite Hrows.
  - intros res [rows' [sorted [Hsel [[Hperm Hsorted] ->]]]].
    rewrite Hrows in Hsel. inversion Hsel; subst rows'. clear Hsel.
    destruct (select_similarity_rows t v Hrows) as [Hfst Hsim].
    apply sorted_strongly in Hsorted.
    pose proof (firstn_skipn k sorted) as Hsplit.
    rewrite <- Hsplit in Hsorted.
    destruct (sorted_app_inv _ _ Hsorted) as [Hres [_ Hcut]].
    assert (Hin : forall x, In x sorted -> In x rows)
      by (intros x; apply Permutation_in; now apply Permutation_sym).
    assert (Ht : Permutation t (map fst sorted))
      by (rewrite <- Hfst; now apply Permutation_map).
    repeat split.
    + rewrite length_firstn, <- (Permutation_length Hperm).
      rewrite <- Hfst. now rewrite length_map.
    + assumption.
    + rewrite <- Hfst. apply in_map, Hin.
      rewrite <- Hsplit. apply in_or_app. now left.
    + apply Hsim, Hin. rewrite <- Hsplit. apply in_or_app. now left.
    + exists (skipn k sorted). repeat split.
      * now rewrite <- map_app, Hsplit.
      * intros y Hy. apply Hsim, Hin.
        rewrite <- Hsplit. apply in_or_app. now right.
      * assumption.
    + intros Hk. rewrite firstn_all2; [assumption|].
      rewrite <- (Permutation_length Hperm).
      rewrite <- Hfst in Hk. now rewrite length_map in Hk.
  - intros ->. split; [|discriminate].
    exists [], []. repeat split; try constructor. now destruct k.
Qed.

(** C6, as the code has it: two results of the same query on the same
    table agree place by place up to ties, and they are the same list
    when no two different stored rows are equally similar to the
    query. *)
Theorem search_order_up_to_ties (t : table) (v : list num) (k : nat)
        (res1 res2 : list (row * num)) :
  search_results t v k res1 ->
  search_results t v k res2 ->
  Forall2 tie res1 res2 /\
  ((forall r1 r2 s1 s2,
       In r1 t -> In r2 t ->
       list_cosine_similarity (embedding r1) v = Some s1 ->
       list_cosine_similarity (embedding r2) v = Some s2 ->
       num_leb s1 s2 = true -> num_leb s2 s1 = true -> r1 = r2) ->
   res1 = res2).
Proof.
  intros [rows1 [sorted1 [Hsel1 [[Hp1 Hs1] ->]]]]
         [rows2 [sorted2 [Hsel2 [[Hp2 Hs2] ->]]]].
  rewrite Hsel1 in Hsel2. inversion Hsel2; subst rows2. clear Hsel2.
  destruct (select_similarity_rows t v Hsel1) as [Hfst Hsim].
  assert (Hties : Forall2 tie sorted1 sorted2).
  { apply sorted_perm_tie; try now apply sorted_strongly.
    now rewrite <- Hp1. }
  split; [now apply Forall2_firstn|].
  intros Hdistinct. f_equal.
  assert (Hin1 : forall x, In x sorted1 -> In x rows1)
    by (intros x; apply Permutation_in; now apply Permutation_sym).
  assert (Hin2 : forall x, In x sorted2 -> In x rows1)
    by (intros x; apply Permutation_in; now apply Permutation_sym).
  clear Hp1 Hp2 Hs1 Hs2.
  induction Hties as [|x y l1 l2 [Hxy Hyx] _ IH]; [reflexivity|].
  assert (Hx : In x rows1) by (apply Hin1; now left).
  assert (Hy : In y rows1) by (apply Hin2; now left).
  assert (Hr : fst x = fst y).
  { apply (Hdistinct (fst x) (fst y) (snd x) (snd y)); auto.
    - rewrite <- Hfst. now apply in_map.
    - rewrite <- Hfst. now apply in_map. }
  assert (Hs : snd x = snd y).
  { pose proof (Hsim x Hx) as Hsx. pose proof (Hsim y Hy) as Hsy.
    rewrite Hr in Hsx. congruence. }
  f_equal.
  - destruct x, y; simpl in *; congruence.
  - apply IH; intros z Hz; [apply Hin1 | apply Hin2]; now right.
Qed.

End SearchClaims.

(** ** The query loop *)

Section LoopFacts.

Context {E : Engine} {M : Embedder E}.

Import PyStr PyStrFacts.

(** A blank line is not an exit word. *)
Lemma blank_not_exit (query : str) :
  whitespace_only query = true -> wants_exit query = false.
Proof.
  unfold wants_exit. destruct query as [|c query]; [reflexivity|].
  simpl. intros H. apply andb_prop in H as [Hc _].
  destruct (isspace_not_e_q c Hc) as [-> [He Hq]].
  apply N.eqb_neq in He, Hq. simpl. now rewrite He, Hq.
Qed.

Lemma wants_exit_iff (query : str) :
  wants_exit query = true <->
  lower query = py "exit" \/ lower query = py "quit".
Proof.
  unfold wants_exit. now rewrite orb_true_iff, !eqb_eq.
Qed.

(** A raised statement and a returned result exclude each other. *)
Lemma raises_no_result (t : table) (v : list num) (n : nat)
      (res : list (row * num)) :
  search_raises t v -> ~ search_results t v n res.
Proof.
  unfold search_raises. intros H [rows [sorted [Hsel _]]]. congruence.
Qed.

(** C8: an iteration on an empty or all-blank line prints the prompt and
    does nothing else: no call of the model, no statement sent to the
    database, no exception; the loop goes on with the next line on the
    same table, and what the run does afterwards is what it does on the
    remaining lines.  Blank is what [str.strip()] removes, the blanks
    beyond ASCII too. *)
Theorem blank_query_is_noop (t : table) (n : Z) (query : str)
        (rest : list str) :
  whitespace_only query = true ->
  forall evs o,
    query_loop t n (query :: rest) evs o <->
    exists evs', evs = EvPrompt :: evs' /\ query_loop t n rest evs' o.
Proof.
  intros Hblank evs o.
  pose proof (blank_not_exit query Hblank) as Hexit.
  pose proof (proj2 (truthy_strip query) Hblank) as Hstrip.
  split.
  - intros H. inversion H; subst; try congruence. eauto.
  - intros [evs' [-> H]]. now apply loop_continue.
Qed.

(** C10: a line that lowercases to [exit] or [quit] ends the loop in that
    iteration, with nothing but the prompt done; blanks around the word
    are not removed before the test; and no run ever hands the model a
    query that lowercases to [exit] or [quit]. *)
Theorem exit_words_end_loop (t : table) (n : Z) :
  (forall query rest,
      lower query = py "exit" \/ lower query = py "quit" ->
      query_loop t n (query :: rest) [EvPrompt] Completed /\
      forall evs o,
        query_loop t n (query :: rest) evs o ->
        evs = [EvPrompt] /\ o = Completed) /\
  (forall inputs evs o,
      query_loop t n inputs evs o ->
      forall q, In q (encoded evs) ->
                lower q <> py "exit" /\ lower q <> py "quit") /\
  (wants_exit (py "ExIt") = true /\ wants_exit (py "QUIT") = true /\
   wants_exit (py " exit") = false /\ wants_exit (py "quit ") = false).
Proof.
  split; [|split].
  - intros query rest Hq. apply wants_exit_iff in Hq.
    split; [now apply loop_exit|].
    intros evs o H. inversion H; subst; try congruence. auto.
  - intros inputs evs o H.
    assert (Hno : forall q, wants_exit q = false ->
                            lower q <> py "exit" /\ lower q <> py "quit").
    { intros q Hq. split; intros Heq;
        assert (wants_exit q = true) by (apply wants_exit_iff; auto);
        congruence. }
    induction H; simpl; intros q Hin;
      try (destruct Hin as [<- | Hin]); try contradiction; auto.
  - repeat split; reflexivity.
Qed.

(** C5, as the code has it: the search hands the stored vector and the
    query vector to the engine's similarity function as they are and
    returns its value; when that function raises on a stored vector the
    statement raises, no result is returned, and the exception leaves the
    query loop at that query.  Insertion does not look at the vector: a
    row's key is found or not whatever its embedding, and a row with a
    new key is appended. *)
Theorem similarity_failure_surfaces (t : table) (v : list num) (n : Z) :
  (forall r,
      In r t -> list_cosine_similarity (embedding r) v = None ->
      search_raises t v /\
      (forall k res, ~ search_results t v k res) /\
      execute_raises t v n /\
      (forall res, ~ execute_returns t v n res) /\
      (forall query rest evs o,
          wants_exit query = false ->
          truthy (strip query) = true ->
          encode query = Some v ->
          query_loop t n (query :: rest) evs o ->
          evs = [EvPrompt; EvEncode query; EvExecute v n] /\
          o = Aborted EngineError)) /\
  (forall k res x,
      search_results t v k res -> In x res ->
      list_cosine_similarity (embedding (fst x)) v = Some (snd x)) /\
  (forall ln fname au ti text e e',
      has_key t (mk_row ln fname au ti text e)
      = has_key t (mk_row ln fname au ti text e')) /\
  (forall r, has_key t r = false -> insert_or_ignore t r = t ++ [r]).
Proof.
  split; [|split; [|split]].
  - intros r Hin Hr.
    pose proof (select_similarity_raises t v r Hin Hr) as Hraise.
    assert (Hno : forall res, ~ execute_returns t v n res).
    { intros res [_ Hres]. exact (raises_no_result Hraise Hres). }
    split; [exact Hraise|].
    split; [intros k res; now apply raises_no_result|].
    split; [right; right; exact Hraise|]. split; [exact Hno|].
    intros query rest evs o Hexit Hstrip Henc H.
    inversion H; subst; try congruence.
    + split; congruence.
    + exfalso.
      match goal with
      | Hres : execute_returns t ?v' n _ |- _ =>
          assert (v' = v) by congruence; subst v';
          exact (Hno _ Hres)
      end.
  - intros k res x [rows [sorted [Hsel [[Hperm _] ->]]]] Hx.
    destruct (select_similarity_rows t v Hsel) as [_ Hsim].
    apply Hsim. apply (Permutation_in _ (Permutation_sym Hperm)).
    rewrite <- (firstn_skipn k sorted). apply in_or_app. now left.
  - reflexivity.
  - apply insert_fresh.
Qed.

(** The loop always has a run: it ends on every finite input. *)
Lemma query_loop_total {O : EngineOrder E} (t : table) (n : Z)
      (inputs : list str) :
  exists evs o, query_loop t n inputs evs o.
Proof.
  induction inputs as [|query rest [evs [o IH]]].
  - eexists; eexists; constructor.
  - destruct (wants_exit query) eqn:Hexit.
    { eexists; eexists; now apply loop_exit. }
    destruct (truthy (strip query)) eqn:Hstrip.
    2:{ eexists; eexists; apply loop_continue; eassumption. }
    destruct (encode query) as [v|] eqn:Henc.
    2:{ eexists; eexists; now apply loop_encode_raises. }
    destruct (Z.ltb_spec n 0) as [Hneg | Hpos].
    { eexists; eexists. eapply loop_execute_raises; try eassumption.
      now left. }
    destruct (search t v (Z.to_nat n)) as [res|] eqn:Hsearch.
    + eexists; eexists. eapply loop_results; try eassumption.
      split; [assumption|]. apply search_is_result. exact Hsearch.
    + eexists; eexists. eapply loop_execute_raises; try eassumption.
      right; right.
      unfold search in Hsearch. unfold search_raises.
      destruct (select_similarity t v); [discriminate | reflexivity].
Qed.

End LoopFacts.

(** ** The properties on the stand-ins *)

Section OnStubs.

Import Stub.

Local Open Scope Z_scope.

#[local] Existing Instance engine.
#[local] Existing Instance embedder.

Lemma stub_order : EngineOrder engine.
Proof.
  constructor; simpl.
  - intros a b. destruct (Z.leb_spec a b); [now left | right].
    apply Z.leb_le. lia.
  - intros a b c Hab Hbc. apply Z.leb_le in Hab, Hbc. apply Z.leb_le. lia.
Qed.

#[local] Existing Instance stub_order.

Lemma reingest_counts_witness :
  length book_vectors = length (snd (parse_file book)) /\
  (forall r, In r (db st0) -> filename r <> (py "a.txt")) /\
  exists st1 st2,
    process_file st0 (py "a.txt") (Some book) = (st1, None) /\
    process_file st1 (py "a.txt") (Some book) = (st2, None) /\
    count (db st1) = count (db st0) + 2 /\
    total_lines_inserted (tot st1) = total_lines_inserted (tot st0) + 2 /\
    total_lines_skipped (tot st1) = total_lines_skipped (tot st0) /\
    db st2 = db st1 /\
    total_lines_inserted (tot st2) = total_lines_inserted (tot st1) /\
    total_lines_skipped (tot st2) = total_lines_skipped (tot st1) + 2 /\
    (snd (parse_file book) <> [] ->
     out st1 = (out st0 ++ [MsgProcessing (py "a.txt"); MsgLines 2; MsgInserted 2 0]) /\
     out st2 = (out st1 ++ [MsgProcessing (py "a.txt"); MsgLines 2; MsgInserted 0 2])).
Proof.
  split; [reflexivity|]. split; [intros r []|].
  apply (@reingest_counts engine embedder st0 (py "a.txt") book book_vectors).
  - intros _. reflexivity.
  - reflexivity.
  - intros r [].
Defined.

Lemma key_identifies_record_witness :
  reachable [row1] /\
  unique_keys [row1] /\
  (forall r, In (key r) (map key [row1]) -> insert_or_ignore [row1] r = [row1]) /\
  (forall r, ~ In (key r) (map key [row1]) ->
             insert_or_ignore [row1] r = [row1] ++ [r]) /\
  (forall data,
      reachable (executemany [row1] data) /\
      unique_keys (executemany [row1] data) /\
      (exists added,
          executemany [row1] data = [row1] ++ added /\
          (forall r, In r added -> In r data /\ ~ In (key r) (map key [row1]))) /\
      (forall r, In r data -> In (key r) (map key (executemany [row1] data))) /\
      (forall k, find_key k (executemany [row1] data)
                 = find_key k ([row1] ++ data)) /\
      (forall before r after,
          data = before ++ r :: after ->
          In (key r) (map key ([row1] ++ before)) ->
          executemany [row1] data = executemany [row1] (before ++ after)) /\
      (forall old r, In old [row1] -> In r (executemany [row1] data) ->
                     key r = key old -> r = old)).
Proof.
  assert (H : reachable [row1]) by exact (reach_insert row1 reach_create).
  split; [exact H|].
  exact (@key_identifies_record engine [row1] H).
Defined.

Lemma insert_batch_counts_witness :
  exists added,
    [row1; row2] = [row1] ++ added /\
    1 = Z.of_nat (length added) /\
    (forall r, In r added ->
               In r [row1_again; row2] /\ ~ In (key r) (map key [row1])).
Proof.
  destruct (@insert_batch_counts engine [row1] [row1_again; row2])
    as [added [Ht [Hi [_ [_ [_ [_ [_ [_ [Hin _]]]]]]]]]].
  exists added. split; [exact Ht|]. split; [exact Hi | exact Hin].
Defined.

Lemma search_top_k_witness :
  (forall r, In r [row1; row2; row3] ->
             list_cosine_similarity (embedding r) query_vector <> None) /\
  (exists res, search_results [row1; row2; row3] query_vector 2 res) /\
  (forall res,
      search_results [row1; row2; row3] query_vector 2 res ->
      length res = 2%nat /\ StronglySorted desc res).
Proof.
  assert (H : forall r, In r [row1; row2; row3] ->
                        list_cosine_similarity (embedding r) query_vector <> None).
  { intros r [<- | [<- | [<- | []]]]; discriminate. }
  split; [exact H|].
  destruct (@search_top_k engine stub_order [row1; row2; row3] query_vector 2 H)
    as [Hex [Hall _]].
  split; [exact Hex|].
  intros res Hres. destruct (Hall res Hres) as [Hlen [Hsorted _]].
  split; [exact Hlen | exact Hsorted].
Defined.

Lemma search_order_up_to_ties_witness :
  search_results [row1; row3] query_vector 2 [(row1, 11); (row3, 11)] /\
  search_results [row1; row3] query_vector 2 [(row3, 11); (row1, 11)] /\
  Forall2 tie [(row1, 11); (row3, 11)] [(row3, 11); (row1, 11)].
Proof.
  assert (H1 : search_results [row1; row3] query_vector 2
                              [(row1, 11); (row3, 11)])
    by (apply search_is_result; reflexivity).
  assert (H2 : search_results [row1; row3] query_vector 2
                              [(row3, 11); (row1, 11)]).
  { exists [(row1, 11); (row3, 11)], [(row3, 11); (row1, 11)].
    split; [reflexivity|]. split; [|reflexivity].
    split; [apply perm_swap | repeat constructor]. }
  split; [exact H1|]. split; [exact H2|].
  exact (proj1 (@search_order_up_to_ties engine stub_order [row1; row3]
                  query_vector 2 _ _ H1 H2)).
Defined.

Lemma similarity_failure_surfaces_witness :
  In row4 [row1; row4] /\
  list_cosine_similarity (embedding row4) query_vector = None /\
  search_raises [row1; row4] query_vector /\
  (forall res, ~ search_results [row1; row4] query_vector 1 res).
Proof.
  assert (Hin : In row4 [row1; row4]) by (right; left; reflexivity).
  assert (Hnone : list_cosine_similarity (embedding row4) query_vector = None)
    by reflexivity.
  split; [exact Hin|]. split; [exact Hnone|].
  destruct (proj1 (@similarity_failure_surfaces engine embedder [row1; row4]
                     query_vector 1)
                  row4 Hin Hnone) as [Hraise [Hno _]].
  split; [exact Hraise | exact (Hno 1%nat)].
Defined.

Lemma embedder_failure_stops_run_witness :
  snd (parse_file bad_book) <> [] /\
  encode_batch (map snd (snd (parse_file bad_book))) = None /\
  exists st',
    process_files st0 ([(py "a.txt", Some book)]
                         ++ (py "bad.txt", Some bad_book) :: [(py "c.txt", Some book)])
    = (st', Aborted EmbedderError) /\
    db st' = db (fst (process_files st0 [(py "a.txt", Some book)])) /\
    total_lines_inserted (tot st') = 2 /\
    total_lines_skipped (tot st') = 0.
Proof.
  assert (Hne : snd (parse_file bad_book) <> []) by (vm_compute; discriminate).
  assert (Henc : encode_batch (map snd (snd (parse_file bad_book))) = None)
    by reflexivity.
  split; [exact Hne|]. split; [exact Henc|].
  exact (@embedder_failure_stops_run engine embedder
           st0 (fst (process_files st0 [(py "a.txt", Some book)]))
           [(py "a.txt", Some book)] [(py "c.txt", Some book)] (py "bad.txt")
           bad_book Hne Henc eq_refl).
Defined.

Lemma blank_query_is_noop_witness :
  PyStr.whitespace_only [0xA0%N; 32%N; 0x3000%N] = true /\
  forall evs o,
    query_loop [row1] 1 [[0xA0%N; 32%N; 0x3000%N]; py "the cat"] evs o <->
    exists evs', evs = EvPrompt :: evs' /\
                 query_loop [row1] 1 [py "the cat"] evs' o.
Proof.
  split; [reflexivity|].
  exact (@blank_query_is_noop engine embedder [row1] 1
           [0xA0%N; 32%N; 0x3000%N] [py "the cat"] eq_refl).
Defined.

Lemma exit_words_end_loop_witness :
  (PyStr.lower (py "EXIT") = py "exit" \/ PyStr.lower (py "EXIT") = py "quit") /\
  query_loop [row1] 1 [py "EXIT"; py "the cat"] [EvPrompt] Completed /\
  forall evs o,
    query_loop [row1] 1 [py "EXIT"; py "the cat"] evs o ->
    evs = [EvPrompt] /\ o = Completed.
Proof.
  assert (H : PyStr.lower (py "EXIT") = py "exit" \/ PyStr.lower (py "EXIT") = py "quit")
    by (left; reflexivity).
  split; [exact H|].
  exact (proj1 (@exit_words_end_loop engine embedder [row1] 1)
               (py "EXIT") [py "the cat"] H).
Defined.

(** C5, against the claim: a row whose vector has another length than the
    stored one is written like any other. *)
Lemma mismatched_vector_is_written :
  length (embedding row4) <> length (embedding row1) /\
  insert_batch [row1] [row4] = ([row1; row4], 1, 0).
Proof. split; [discriminate | reflexivity]. Qed.

(** C6, against the claim: 25 rows that hold the same line tie under any
    similarity, and the statement, which names no second sort key, admits
    them in the order of insertion and in the reverse order alike. *)
Lemma tie_order_not_fixed :
  search_results tied_table query_vector 25
                 (map (fun r => (r, 11)) tied_table) /\
  search_results tied_table query_vector 25
                 (rev (map (fun r => (r, 11)) tied_table)) /\
  map fst (rev (map (fun r => (r, 11)) tied_table)) <> tied_table.
Proof.
  split; [|split].
  - apply search_is_result. reflexivity.
  - exists (map (fun r => (r, 11)) tied_table),
           (rev (map (fun r => (r, 11)) tied_table)).
    split; [reflexivity|]. split; [|reflexivity].
    split; [apply Permutation_rev|].
    vm_compute. repeat constructor.
  - vm_compute. discriminate.
Qed.

(** C7, against the claim: the model raises on the first of two files and
    the second, which alone would give two rows, is never ingested. *)
Lemma one_bad_file_aborts_run :
  snd (prepare_main None
         (Some [(py "a.txt", Some bad_book); (py "b.txt", Some book)]))
  = Aborted EmbedderError /\
  db (fst (prepare_main None
             (Some [(py "a.txt", Some bad_book); (py "b.txt", Some book)])))
  = [] /\
  count (db (fst (prepare_main None (Some [(py "b.txt", Some book)])))) = 2.
Proof. repeat split; reflexivity. Qed.

End OnStubs.

(** * Further properties of the two scripts *)

(** ** [parse_file] *)

Module ParseFacts.
Import PyStr PyStrFacts.

Local Open Scope Z_scope.

(** What the loop appends: from index [i] on, every pair is a line of the
    list with its position, stripped and not blank, and no marker line. *)
Lemma parse_loop_positions (file_content : list str) :
  forall i a t s ln text,
    In (ln, text) (snd (parse_loop i file_content a t s)) ->
    exists k line,
      nth_error file_content k = Some line /\
      ln = i + 1 + Z.of_nat k /\
      text = strip line /\
      truthy text = true /\
      is_start_line line = false /\
      is_end_line line = false /\
      (s = false ->
       exists j l0, (j < k)%nat /\ nth_error file_content j = Some l0 /\
                    is_start_line l0 = true).
Proof.
  induction file_content as [|line rest IH]; intros i a t s ln text; simpl;
    [intros []|].
  fold (is_start_line line). fold (is_end_line line).
  destruct (is_start_line line) eqn:Hstart.
  - intros Hin. destruct (IH _ _ _ _ _ _ Hin)
      as [k [l [Hk [Hln [Ht [Hne [Hs [He _]]]]]]]].
    exists (S k), l. repeat split; auto; [lia|].
    intros _. exists 0%nat, line. repeat split; auto. lia.
  - destruct (is_end_line line) eqn:Hend; [intros []|].
    match goal with
    | |- context [parse_loop (i + 1) rest ?a' ?t' s] =>
        specialize (IH (i + 1) a' t' s);
        destruct (parse_loop (i + 1) rest a' t' s) as [[a0 t0] ls]
    end.
    simpl in *.
    assert (Hrec : In (ln, text) ls ->
                   exists k l,
                     nth_error (line :: rest) k = Some l /\
                     ln = i + 1 + Z.of_nat k /\ text = strip l /\
                     truthy text = true /\ is_start_line l = false /\
                     is_end_line l = false /\
                     (s = false ->
                      exists j l0, (j < k)%nat /\
                                   nth_error (line :: rest) j = Some l0 /\
                                   is_start_line l0 = true)).
    { intros Hin. destruct (IH _ _ Hin)
        as [k [l [Hk [Hln [Ht [Hne [Hs [He Hbefore]]]]]]]].
      exists (S k), l. repeat split; auto; [lia|].
      intros Hsf. destruct (Hbefore Hsf) as [j [l0 [Hj [Hl0 Hst]]]].
      exists (S j), l0. repeat split; auto. lia. }
    destruct (s && truthy (strip line))%bool eqn:Hkeep; [|exact Hrec].
    intros [Heq | Hin]; [|now apply Hrec].
    inversion Heq; subst. apply andb_prop in Hkeep as [Hs Hne].
    exists 0%nat, line. repeat split; auto; [lia | congruence].
Qed.

(** X1: every pair [parse_file] returns is a line of the file with its
    1-based position: the text is that line stripped, it is not empty and is
    already stripped, the line is neither a start nor an end marker line,
    and a start marker line stands before it. *)
Theorem parse_file_positions (file_content : list str) (ln : Z)
        (text : str) :
  In (ln, text) (snd (parse_file file_content)) ->
  1 <= ln <= Z.of_nat (length file_content) /\
  exists line,
    nth_error file_content (Z.to_nat (ln - 1)) = Some line /\
    text = strip line /\
    text <> [] /\
    strip text = text /\
    is_start_line line = false /\
    is_end_line line = false /\
    exists j l0, (Z.of_nat j < ln - 1) /\
                 nth_error file_content j = Some l0 /\
                 is_start_line l0 = true.
Proof.
  unfold parse_file. intros Hin.
  destruct (parse_loop_positions _ _ _ _ _ _ _ Hin)
    as [k [line [Hk [Hln [Ht [Hne [Hs [He Hbefore]]]]]]]].
  assert (Hlt : (k < length file_content)%nat)
    by (apply nth_error_Some; congruence).
  split; [lia|]. exists line.
  replace (Z.to_nat (ln - 1)) with k by lia.
  repeat split; auto.
  - intros Hempty. rewrite Hempty in Hne. discriminate.
  - rewrite Ht. apply strip_idem.
  - destruct (Hbefore eq_refl) as [j [l0 [Hj [Hl0 Hst]]]].
    exists j, l0. repeat split; auto. lia.
Qed.

(** X2: what follows an end marker line is not read: neither its content
    nor its title and author lines change the result. *)
Theorem parse_file_stops_at_end (before after : list str) (line : str) :
  is_start_line line = false ->
  is_end_line line = true ->
  parse_file (before ++ line :: after) = parse_file (before ++ [line]).
Proof.
  intros Hstart Hend. unfold parse_file.
  enough (H : forall i a t s,
             parse_loop i (before ++ line :: after) a t s
             = parse_loop i (before ++ [line]) a t s) by apply H.
  induction before as [|l before IH]; intros i a t s.
  - simpl. fold (is_start_line line). fold (is_end_line line).
    now rewrite Hstart, Hend.
  - cbn [app parse_loop].
    destruct (contains START_MARKER (upper l)); [apply IH|].
    destruct (contains END_MARKER (upper l)); [reflexivity|].
    now rewrite IH.
Qed.

Lemma parse_loop_skip (pre rest : list str) :
  Forall plain_line pre ->
  forall i a t,
    exists a' t',
      parse_loop i (pre ++ rest) a t false
      = parse_loop (i + Z.of_nat (length pre)) rest a' t' false.
Proof.
  induction 1 as [|l pre [Hs He] _ IH]; intros i a t.
  - exists a, t. simpl. now rewrite Z.add_0_r.
  - cbn [app parse_loop].
    fold (is_start_line l). fold (is_end_line l). rewrite Hs, He.
    match goal with
    | |- context [parse_loop (i + 1) (pre ++ rest) ?a' ?t' false] =>
        destruct (IH (i + 1) a' t') as [a1 [t1 ->]]
    end.
    exists a1, t1. cbn [andb].
    replace (i + Z.of_nat (length (l :: pre)))
      with (i + 1 + Z.of_nat (length pre)) by (simpl length; lia).
    now destruct (parse_loop _ rest a1 t1 false) as [[a0 t0] ls].
Qed.

Lemma parse_loop_body (body rest : list str) :
  Forall plain_line body ->
  forall i a t,
    exists a' t',
      snd (parse_loop i (body ++ rest) a t true)
      = (stripped_lines (i + 1) body
           ++ snd (parse_loop (i + Z.of_nat (length body)) rest a' t' true))%list.
Proof.
  induction 1 as [|l body [Hs He] _ IH]; intros i a t.
  - exists a, t. simpl. now rewrite Z.add_0_r.
  - cbn [app parse_loop].
    fold (is_start_line l). fold (is_end_line l). rewrite Hs, He.
    match goal with
    | |- context [parse_loop (i + 1) (body ++ rest) ?a' ?t' true] =>
        destruct (IH (i + 1) a' t') as [a1 [t1 Hrec]];
        destruct (parse_loop (i + 1) (body ++ rest) a' t' true)
          as [[a0 t0] ls]
    end.
    exists a1, t1. cbn [snd andb] in *. rewrite Hrec.
    replace (i + Z.of_nat (length (l :: body)))
      with (i + 1 + Z.of_nat (length body)) by (simpl length; lia).
    unfold stripped_lines. cbn [enumerate_from map filter snd fst].
    now destruct (truthy (strip l)).
Qed.

(** X3: on a book of the usual shape (lines without markers, a start marker
    line, a body without markers, an end marker line, anything after it)
    [parse_file] returns exactly the body's lines that are not blank,
    stripped, each with its 1-based position in the file, in order. *)
Theorem parse_file_book (pre body post : list str) (start_line end_line : str) :
  Forall plain_line pre ->
  is_start_line start_line = true ->
  Forall plain_line body ->
  is_start_line end_line = false ->
  is_end_line end_line = true ->
  snd (parse_file (pre ++ start_line :: body ++ end_line :: post))
  = stripped_lines (Z.of_nat (length pre) + 2) body.
Proof.
  intros Hpre Hstart Hbody Hes Hee. unfold parse_file.
  destruct (parse_loop_skip (start_line :: body ++ end_line :: post) Hpre
                            0 (py "Unknown") (py "Unknown"))
    as [a1 [t1 ->]].
  cbn [parse_loop]. fold (is_start_line start_line). rewrite Hstart.
  match goal with
  | |- context [parse_loop ?i (body ++ end_line :: post) ?a' ?t' true] =>
      destruct (parse_loop_body (end_line :: post) Hbody i a' t')
        as [a2 [t2 ->]]
  end.
  cbn [parse_loop]. fold (is_start_line end_line). fold (is_end_line end_line).
  rewrite Hes, Hee. cbn [snd]. rewrite app_nil_r.
  f_equal. lia.
Qed.

(** X4: a file none of whose lines is a start marker line has no content,
    and one that declares no title and no author gets "Unknown" for
    both. *)
Theorem parse_file_defaults (file_content : list str) :
  ((forall line, In line file_content -> is_start_line line = false) ->
   snd (parse_file file_content) = []) /\
  ((forall line, In line file_content ->
                 startswith (strip line) (py "Title: ") = false) ->
   snd (fst (parse_file file_content)) = (py "Unknown")) /\
  ((forall line, In line file_content ->
                 startswith (strip line) (py "Author: ") = false) ->
   fst (fst (parse_file file_content)) = (py "Unknown")).
Proof.
  unfold parse_file. split; [|split].
  - intros H.
    destruct (snd (parse_loop 0 file_content (py "Unknown") (py "Unknown") false))
      as [|[ln text] ls] eqn:Hl; [reflexivity|].
    destruct (@parse_loop_positions file_content 0 (py "Unknown")
                (py "Unknown") false ln text)
      as [k [line [_ [_ [_ [_ [_ [_ Hbefore]]]]]]]];
      [rewrite Hl; now left|].
    destruct (Hbefore eq_refl) as [j [l0 [_ [Hl0 Hst]]]].
    apply nth_error_In in Hl0. rewrite H in Hst by assumption. discriminate.
  - intros H.
    enough (G : forall i a t s, snd (fst (parse_loop i file_content a t s)) = t)
      by apply G.
    induction file_content as [|l rest IH]; intros i a t s; [reflexivity|].
    cbn [parse_loop]. rewrite (H l) by now left.
    assert (Hrest : forall line, In line rest ->
                                 startswith (strip line) (py "Title: ") = false)
      by (intros; apply H; now right).
    destruct (contains START_MARKER (upper l)); [now apply IH|].
    destruct (contains END_MARKER (upper l)); [reflexivity|].
    match goal with
    | |- context [parse_loop (i + 1) rest ?a' t s] =>
        specialize (IH Hrest (i + 1) a' t s);
        destruct (parse_loop (i + 1) rest a' t s) as [[a0 t0] ls]
    end.
    exact IH.
  - intros H.
    enough (G : forall i a t s, fst (fst (parse_loop i file_content a t s)) = a)
      by apply G.
    induction file_content as [|l rest IH]; intros i a t s; [reflexivity|].
    cbn [parse_loop]. rewrite (H l) by now left.
    assert (Hrest : forall line, In line rest ->
                                 startswith (strip line) (py "Author: ") = false)
      by (intros; apply H; now right).
    assert (Ha : (if startswith (strip l) (py "Title: ") then a else a) = a)
      by now destruct (startswith (strip l) (py "Title: ")).
    rewrite Ha.
    destruct (contains START_MARKER (upper l)); [now apply IH|].
    destruct (contains END_MARKER (upper l)); [reflexivity|].
    match goal with
    | |- context [parse_loop (i + 1) rest a ?t' s] =>
        specialize (IH Hrest (i + 1) a t' s);
        destruct (parse_loop (i + 1) rest a t' s) as [[a0 t0] ls]
    end.
    exact IH.
Qed.

End ParseFacts.

(** ** A run of prepare.py *)

Section RunFacts.

Context {E : Engine} {M : Embedder E}.

Lemma data_to_insert_enough (fname au ti : str) :
  forall (cl pre : list (Z * str)) (embs pre_e : list (list num)),
    length pre = length pre_e ->
    (length cl <= length embs)%nat ->
    data_to_insert fname au ti (map fst (pre ++ cl)) (pre_e ++ embs)
                   (length pre) (map snd cl)
    = Some (rows_of fname au ti cl embs).
Proof.
  induction cl as [|[ln text] cl IH]; intros pre embs pre_e Hpre Hlen.
  - reflexivity.
  - destruct embs as [|e embs]; [simpl in Hlen; lia|]. simpl in Hlen.
    cbn [map snd data_to_insert].
    assert (Hln : nth_error (map fst (pre ++ (ln, text) :: cl)) (length pre)
                  = Some ln).
    { rewrite map_app, nth_error_app2 by (rewrite length_map; lia).
      now rewrite length_map, Nat.sub_diag. }
    assert (He : nth_error (pre_e ++ e :: embs) (length pre) = Some e).
    { rewrite nth_error_app2 by lia. now rewrite Hpre, Nat.sub_diag. }
    rewrite Hln, He.
    specialize (IH (pre ++ [(ln, text)]) embs (pre_e ++ [e])).
    rewrite !length_app in IH. cbn [length] in IH.
    rewrite <- !app_assoc in IH. cbn [app] in IH.
    replace (length pre + 1)%nat with (S (length pre)) in IH by lia.
    rewrite IH by lia. reflexivity.
Qed.

Lemma data_to_insert_short (fname au ti : str) :
  forall (cl pre : list (Z * str)) (embs pre_e : list (list num)),
    length pre = length pre_e ->
    (length embs < length cl)%nat ->
    data_to_insert fname au ti (map fst (pre ++ cl)) (pre_e ++ embs)
                   (length pre) (map snd cl)
    = None.
Proof.
  induction cl as [|[ln text] cl IH]; intros pre embs pre_e Hpre Hlen.
  - simpl in Hlen. lia.
  - cbn [map snd data_to_insert].
    destruct (nth_error (map fst (pre ++ (ln, text) :: cl)) (length pre));
      [|reflexivity].
    destruct embs as [|e embs].
    + rewrite app_nil_r.
      assert (Hn : nth_error pre_e (length pre) = None)
        by (apply nth_error_None; lia).
      now rewrite Hn.
    + simpl in Hlen.
      destruct (nth_error (pre_e ++ e :: embs) (length pre)); [|reflexivity].
      specialize (IH (pre ++ [(ln, text)]) embs (pre_e ++ [e])).
      rewrite !length_app in IH. cbn [length] in IH.
      rewrite <- !app_assoc in IH. cbn [app] in IH.
      replace (length pre + 1)%nat with (S (length pre)) in IH by lia.
      rewrite IH by lia. reflexivity.
Qed.

Lemma data_to_insert_some (fname au ti : str)
      (cl : list (Z * str)) (embs : list (list num)) (data : list row) :
  data_to_insert fname au ti (map fst cl) embs 0 (map snd cl) = Some data ->
  (length cl <= length embs)%nat /\ data = rows_of fname au ti cl embs.
Proof.
  intros H. destruct (Nat.le_gt_cases (length cl) (length embs)) as [Hle | Hgt].
  - pose proof (data_to_insert_enough fname au ti cl [] embs [] eq_refl Hle)
      as G.
    cbn [app length] in G. rewrite G in H. inversion H. auto.
  - pose proof (data_to_insert_short fname au ti cl [] embs [] eq_refl Hgt)
      as G.
    cbn [app length] in G. rewrite G in H. discriminate.
Qed.

(** X7: the loop that builds [data_to_insert] succeeds exactly when the
    model gave at least one vector per content line; it then pairs the
    lines with the first vectors, in order, and otherwise an index is out
    of range. *)
Theorem data_to_insert_bounds (fname au ti : str)
        (content_lines : list (Z * str)) (embeddings : list (list num)) :
  data_to_insert fname au ti (map fst content_lines) embeddings 0
                 (map snd content_lines)
  = if (length content_lines <=? length embeddings)%nat
    then Some (rows_of fname au ti content_lines embeddings)
    else None.
Proof.
  destruct (Nat.leb_spec (length content_lines) (length embeddings)).
  - now apply (data_to_insert_enough fname au ti content_lines [] embeddings []).
  - now apply (data_to_insert_short fname au ti content_lines [] embeddings []).
Qed.

Lemma data_to_insert_length (fname au ti : str) (lns : list Z)
      (embs : list (list num)) (texts : list str) :
  forall i data,
    data_to_insert fname au ti lns embs i texts = Some data ->
    length data = length texts.
Proof.
  induction texts as [|text texts IH]; intros i data; simpl.
  - intros H; inversion H. reflexivity.
  - destruct (nth_error lns i); [|discriminate].
    destruct (nth_error embs i); [|discriminate].
    destruct (data_to_insert fname au ti lns embs (S i) texts) eqn:Hrec;
      [|discriminate].
    intros H; inversion H. simpl. f_equal. eapply IH. eassumption.
Qed.

Lemma announced_app (a b : list message) :
  announced (a ++ b) = announced a ++ announced b.
Proof.
  induction a as [|m a IH]; simpl; [reflexivity|].
  destruct m; simpl; now rewrite ?IH.
Qed.

Local Open Scope Z_scope.

(** What one iteration changes. *)
(** The arithmetic left when a branch of the loop body is laid open. *)
Ltac finish_deltas :=
  repeat split;
  try reflexivity; try lia; try discriminate;
  try (intros _; lia);
  try (intros ? ?; repeat split; reflexivity).

Lemma process_file_deltas (st : state) (fname : str)
      (file : option (list str)) :
  let st' := fst (process_file st fname file) in
  let oe := snd (process_file st fname file) in
  total_files_loaded (tot st') = total_files_loaded (tot st) + 1 /\
  total_lines_inserted (tot st') - total_lines_inserted (tot st)
  = count (db st') - count (db st) /\
  0 <= total_lines_inserted (tot st') - total_lines_inserted (tot st) /\
  0 <= total_lines_skipped (tot st') - total_lines_skipped (tot st) /\
  (total_lines_inserted (tot st') - total_lines_inserted (tot st))
  + (total_lines_skipped (tot st') - total_lines_skipped (tot st))
  <= total_lines_processed (tot st') - total_lines_processed (tot st) /\
  (oe = None ->
   (total_lines_inserted (tot st') - total_lines_inserted (tot st))
   + (total_lines_skipped (tot st') - total_lines_skipped (tot st))
   = total_lines_processed (tot st') - total_lines_processed (tot st)) /\
  (forall e, oe = Some e ->
             db st' = db st /\
             total_lines_inserted (tot st') = total_lines_inserted (tot st) /\
             total_lines_skipped (tot st') = total_lines_skipped (tot st)) /\
  announced (out st') = (announced (out st) ++ [fname])%list.
Proof.
  assert (Hann : forall a m, (forall f, m <> MsgProcessing f) ->
                             announced (a ++ [m]) = announced a).
  { intros a m Hm. rewrite announced_app.
    destruct m; simpl; try apply app_nil_r. now destruct (Hm fname0). }
  unfold process_file. destruct file as [file_content|].
  2:{ cbn [fst snd db tot out total_files_loaded total_lines_processed
               total_lines_inserted total_lines_skipped].
      rewrite announced_app. finish_deltas. }
  destruct (parse_file file_content) as [[au ti] cl].
  destruct cl as [|c cl].
  { cbn [fst snd db tot out total_files_loaded total_lines_processed
             total_lines_inserted total_lines_skipped].
    rewrite !Hann by discriminate. rewrite announced_app. finish_deltas. }
  destruct (encode_batch (map snd (c :: cl))) as [embs|].
  2:{ cbn [fst snd db tot out total_files_loaded total_lines_processed
               total_lines_inserted total_lines_skipped].
      rewrite !Hann by discriminate. rewrite announced_app. finish_deltas. }
  destruct (data_to_insert fname au ti (map fst (c :: cl)) embs 0
                           (map snd (c :: cl))) as [data|] eqn:Hdata.
  2:{ cbn [fst snd db tot out total_files_loaded total_lines_processed
               total_lines_inserted total_lines_skipped].
      rewrite !Hann by discriminate. rewrite announced_app. finish_deltas. }
  apply data_to_insert_length in Hdata. rewrite length_map in Hdata.
  unfold insert_batch, count.
  destruct (executemany_extends data (db st)) as [added [Heq Hlen]].
  cbn [fst snd db tot out total_files_loaded total_lines_processed
           total_lines_inserted total_lines_skipped].
  rewrite Heq, length_app. rewrite !Hann by discriminate.
  rewrite announced_app. finish_deltas.
Qed.

(** X8: an iteration that raises, whatever the exception, has written
    nothing: the table and the inserted and skipped totals are as before
    it; only the file counter, and on a model or index failure the
    processed-lines counter, have moved. *)
Theorem no_write_on_failure (st st' : state) (fname : str)
        (file : option (list str)) (e : exn) :
  process_file st fname file = (st', Some e) ->
  db st' = db st /\
  total_lines_inserted (tot st') = total_lines_inserted (tot st) /\
  total_lines_skipped (tot st') = total_lines_skipped (tot st) /\
  total_files_loaded (tot st') = total_files_loaded (tot st) + 1 /\
  total_lines_processed (tot st) <= total_lines_processed (tot st').
Proof.
  intros H. pose proof (process_file_deltas st fname file) as D.
  rewrite H in D. cbn [fst snd] in D.
  destruct D as [Hf [_ [_ [_ [Hle [_ [Hfail _]]]]]]].
  destruct (Hfail e eq_refl) as [Hdb [Hi Hs]].
  repeat split; auto. lia.
Qed.

Lemma process_files_deltas (files : list (str * option (list str))) :
  forall st,
    let st' := fst (process_files st files) in
    let o := snd (process_files st files) in
    total_lines_inserted (tot st') - total_lines_inserted (tot st)
    = count (db st') - count (db st) /\
    0 <= total_lines_inserted (tot st') - total_lines_inserted (tot st) /\
    0 <= total_lines_skipped (tot st') - total_lines_skipped (tot st) /\
    (total_lines_inserted (tot st') - total_lines_inserted (tot st))
    + (total_lines_skipped (tot st') - total_lines_skipped (tot st))
    <= total_lines_processed (tot st') - total_lines_processed (tot st) /\
    0 < total_files_loaded (tot st') - total_files_loaded (tot st) + 1
    <= Z.of_nat (length files) + 1 /\
    (o = Completed ->
     (total_lines_inserted (tot st') - total_lines_inserted (tot st))
     + (total_lines_skipped (tot st') - total_lines_skipped (tot st))
     = total_lines_processed (tot st') - total_lines_processed (tot st) /\
     total_files_loaded (tot st') - total_files_loaded (tot st)
     = Z.of_nat (length files)) /\
    exists names,
      announced (out st') = (announced (out st) ++ names)%list /\
      total_files_loaded (tot st') - total_files_loaded (tot st)
      = Z.of_nat (length names) /\
      exists rest, map fst files = (names ++ rest)%list /\
                   (o = Completed -> rest = []).
Proof.
  induction files as [|[fname file] files IH]; intros st.
  - simpl. repeat split; try lia.
    exists []. rewrite app_nil_r. split; [reflexivity|].
    split; [simpl; lia|]. now exists [].
  - pose proof (process_file_deltas st fname file) as D.
    cbn [process_files].
    destruct (process_file st fname file) as [st1 [e|]]; cbn [fst snd] in *.
    + destruct D as [Hf [Hc [Hi [Hs [Hle [_ [_ Ha]]]]]]].
      cbn [length]. repeat split; try lia; try discriminate.
      exists [fname]. split; [assumption|]. split; [simpl; lia|].
      exists (map fst files). split; [reflexivity | discriminate].
    + destruct D as [Hf [Hc [Hi [Hs [Hle [Heq [_ Ha]]]]]]].
      specialize (Heq eq_refl).
      destruct (IH st1)
        as [Hc' [Hi' [Hs' [Hle' [Hfl [Hdone [names [Ha' [Hcnt [rest [Hn Hr]]]]]]]]]]].
      cbn [length]. repeat split; try lia;
        try match goal with
            | Ho : snd _ = Completed |- _ => destruct (Hdone Ho); lia
            end.
      exists (fname :: names). split.
      * rewrite Ha', Ha, <- app_assoc. reflexivity.
      * split; [cbn [length]; lia|].
        exists rest. simpl. now rewrite Hn.
Qed.

End RunFacts.


Section RunClaims.

Context {E : Engine} {M : Embedder E}.

Local Open Scope Z_scope.

Lemma process_files_extends (files : list (str * option (list str))) :
  forall st, exists added, db (fst (process_files st files)) = (db st ++ added)%list.
Proof.
  induction files as [|[fname file] files IH]; intros st; simpl.
  - exists []. now rewrite app_nil_r.
  - destruct (process_file_db st fname file) as [data Hdata].
    destruct (executemany_extends data (db st)) as [a1 [Ha1 _]].
    destruct (process_file st fname file) as [st1 [e|]]; simpl in *.
    + exists a1. congruence.
    + destruct (IH st1) as [a2 ->]. exists (a1 ++ a2)%list.
      rewrite Hdata, Ha1. now rewrite app_assoc.
Qed.

Lemma prepare_main_inserted (db0 : option table)
      (texts_dir : option (list (str * option (list str)))) :
  total_lines_inserted (tot (fst (prepare_main db0 texts_dir)))
  = count (db (fst (prepare_main db0 texts_dir))) - count (create_table db0).
Proof.
  unfold prepare_main.
  destruct texts_dir as [entries|]; [|simpl; lia].
  destruct (filter _ entries) as [|f files]; [simpl; lia|].
  destruct (process_files_deltas (f :: files)
              (mk_state (create_table db0) no_totals [])) as [Hc _].
  cbn [db tot total_lines_inserted no_totals] in Hc. lia.
Qed.

(** X9: the totals a run of prepare.py ends with.  The inserted total is the
    growth of the table's row count over the run, also when the run is cut
    short by an exception; the skipped total is not negative; inserted and
    skipped together never exceed the processed lines, and they account for
    every processed line when the run completes. *)
Theorem prepare_main_totals (db0 : option table)
        (texts_dir : option (list (str * option (list str)))) :
  let st := fst (prepare_main db0 texts_dir) in
  total_lines_inserted (tot st) = count (db st) - count (create_table db0) /\
  0 <= total_lines_inserted (tot st) /\
  0 <= total_lines_skipped (tot st) /\
  total_lines_inserted (tot st) + total_lines_skipped (tot st)
  <= total_lines_processed (tot st) /\
  (snd (prepare_main db0 texts_dir) = Completed ->
   total_lines_inserted (tot st) + total_lines_skipped (tot st)
   = total_lines_processed (tot st)).
Proof.
  unfold prepare_main.
  destruct texts_dir as [entries|]; [|simpl; repeat split; lia].
  destruct (filter _ entries) as [|f files]; [simpl; repeat split; lia|].
  destruct (process_files_deltas (f :: files)
              (mk_state (create_table db0) no_totals []))
    as [Hc [Hi [Hs [Hle [_ [Hdone _]]]]]].
  cbn [db tot total_lines_inserted total_lines_skipped total_lines_processed
          no_totals] in *.
  repeat split; try lia.
  intros Ho. destruct (Hdone Ho). lia.
Qed.

(** X10: a run never clears or rewrites what the table held: the old rows
    are the first rows of the new table, and a key that selected a row
    before the run selects the same row after it. *)
Theorem prepare_main_keeps_rows (db0 : option table)
        (texts_dir : option (list (str * option (list str)))) :
  let t := db (fst (prepare_main db0 texts_dir)) in
  (exists added, t = (create_table db0 ++ added)%list) /\
  (forall k r, find_key k (create_table db0) = Some r -> find_key k t = Some r).
Proof.
  assert (H : exists added,
             db (fst (prepare_main db0 texts_dir))
             = (create_table db0 ++ added)%list).
  { unfold prepare_main.
    destruct texts_dir as [entries|]; [|exists []; simpl; now rewrite app_nil_r].
    destruct (filter _ entries) as [|f files];
      [exists []; simpl; now rewrite app_nil_r|].
    apply (process_files_extends (f :: files)
             (mk_state (create_table db0) no_totals [])). }
  split; [exact H|].
  destruct H as [added ->]. intros k r Hr.
  unfold find_key in *. now rewrite find_over_app, Hr.
Qed.

Lemma process_file_batch (fname : str) (file : option (list str)) :
  exists data oe,
    forall st,
      snd (process_file st fname file) = oe /\
      db (fst (process_file st fname file)) = executemany (db st) data.
Proof.
  unfold process_file. destruct file as [file_content|].
  2:{ exists [], (Some OSError). intros st. split; reflexivity. }
  destruct (parse_file file_content) as [[au ti] cl].
  destruct cl as [|c cl].
  { exists [], None. intros st. split; reflexivity. }
  destruct (encode_batch (map snd (c :: cl))) as [embs|].
  2:{ exists [], (Some EmbedderError). intros st. split; reflexivity. }
  destruct (data_to_insert fname au ti (map fst (c :: cl)) embs 0
                           (map snd (c :: cl))) as [data|].
  2:{ exists [], (Some IndexError). intros st. split; reflexivity. }
  exists data, None. intros st. split; reflexivity.
Qed.

Lemma has_key_process_files (files : list (str * option (list str))) :
  forall st r,
    has_key (db st) r = true ->
    has_key (db (fst (process_files st files))) r = true.
Proof.
  intros st r H. destruct (process_files_extends files st) as [added ->].
  unfold has_key in *. rewrite existsb_app, H. reflexivity.
Qed.

Lemma process_files_again (files : list (str * option (list str))) :
  forall st st2,
    (forall r, has_key (db (fst (process_files st files))) r = true ->
               has_key (db st2) r = true) ->
    db (fst (process_files st2 files)) = db st2 /\
    snd (process_files st2 files) = snd (process_files st files).
Proof.
  induction files as [|[fname file] files IH]; intros st st2 Hcover.
  - split; reflexivity.
  - destruct (process_file_batch fname file) as [data [oe Hb]].
    destruct (Hb st) as [Ho1 Hd1]. destruct (Hb st2) as [Ho2 Hd2].
    cbn [process_files] in *.
    destruct (process_file st fname file) as [st1 o1].
    destruct (process_file st2 fname file) as [st2' o2].
    cbn [fst snd] in *. subst o1 o2.
    assert (Hsame : db st2' = db st2).
    { rewrite Hd2. apply executemany_present. intros r Hr.
      apply Hcover.
      assert (Hk : has_key (db st1) r = true).
      { rewrite Hd1, has_key_executemany_eq. apply orb_true_iff. right.
        apply existsb_exists. exists r. split; [assumption|].
        now apply same_key_iff. }
      destruct oe as [e|]; [exact Hk | now apply has_key_process_files]. }
    destruct oe as [e|]; cbn [fst snd] in *.
    + split; [assumption | reflexivity].
    + destruct (IH st1 st2') as [Hdb Ho].
      * intros r Hr. rewrite Hsame. now apply Hcover.
      * split; [congruence | assumption].
Qed.

(** X11: running prepare.py again on the same directory changes nothing:
    started on the table the first run left, the second run leaves that
    table, ends the same way (at the same exception, if the first run was
    cut short) and counts no inserted line. *)
Theorem rerun_changes_nothing (db0 : option table)
        (texts_dir : option (list (str * option (list str)))) :
  let first := prepare_main db0 texts_dir in
  let second := prepare_main (Some (db (fst first))) texts_dir in
  db (fst second) = db (fst first) /\
  snd second = snd first /\
  total_lines_inserted (tot (fst second)) = 0.
Proof.
  intros first second.
  assert (H : db (fst second) = db (fst first) /\ snd second = snd first).
  { subst first second. unfold prepare_main.
    destruct texts_dir as [entries|]; [|split; reflexivity].
    destruct (filter _ entries) as [|f files]; [split; reflexivity|].
    cbn [create_table].
    match goal with
    | |- context [process_files ?s2 (f :: files)] =>
        match s2 with
        | mk_state (db _) _ _ =>
            destruct (process_files_again (f :: files)
                        (mk_state (create_table db0) no_totals []) s2)
              as [Hdb Ho]
        end
    end.
    - intros r Hr. exact Hr.
    - split; [exact Hdb | exact Ho]. }
  destruct H as [Hdb Ho]. repeat split; try assumption.
  pose proof (prepare_main_inserted (Some (db (fst first))) texts_dir) as Hi.
  fold second in Hi. rewrite Hi, Hdb. cbn [create_table]. lia.
Qed.

(** X12: the files a run announces are the directory entries whose name
    ends in ".txt", in the order of the directory, each once: all of them
    when the run completes, those up to the failing file when it is cut
    short.  The file counter is their number, and every announced name is
    some string followed by ".txt". *)
Theorem prepare_main_files (db0 : option table)
        (entries : list (str * option (list str))) :
  let st := fst (prepare_main db0 (Some entries)) in
  let txt := map fst (filter (fun f => PyStr.endswith (fst f) (py ".txt")) entries) in
  (exists rest,
      txt = (announced (out st) ++ rest)%list /\
      (snd (prepare_main db0 (Some entries)) = Completed -> rest = [])) /\
  total_files_loaded (tot st) = Z.of_nat (length (announced (out st))) /\
  (forall name, In name (announced (out st)) ->
                exists pre, name = pre ++ py ".txt").
Proof.
  intros st txt.
  assert (H : (exists rest,
                  txt = (announced (out st) ++ rest)%list /\
                  (snd (prepare_main db0 (Some entries)) = Completed ->
                   rest = [])) /\
              total_files_loaded (tot st) = Z.of_nat (length (announced (out st)))).
  { subst st txt. unfold prepare_main.
    destruct (filter _ entries) as [|f files] eqn:Hf.
    - split; [exists []; split; reflexivity | reflexivity].
    - pose proof (process_files_deltas (f :: files)
                    (mk_state (create_table db0) no_totals [])) as D.
      cbn zeta in D.
      destruct D as [_ [_ [_ [_ [_ [_ [names [Ha [Hcnt [rest [Hn Hr]]]]]]]]]]].
      cbn [out announced app tot total_files_loaded no_totals] in Ha, Hcnt.
      split; [exists rest; rewrite Ha; split; assumption|].
      rewrite Ha. lia. }
  destruct H as [[rest [Htxt Hdone]] Hcount].
  split; [now exists rest|]. split; [assumption|].
  intros name Hin.
  assert (Hname : In name txt) by (rewrite Htxt; apply in_or_app; now left).
  subst txt. apply in_map_iff in Hname as [f [<- Hf]].
  apply filter_In in Hf as [_ Hf]. now apply PyStrFacts.endswith_iff.
Qed.

End RunClaims.

(** ** A run of the query loop *)

Section LoopTrace.

Context {E : Engine} {M : Embedder E}.

Import PyStr.

Lemma sorted_firstn {A : Type} (R : A -> A -> Prop) (n : nat) :
  forall l, Sorted R l -> Sorted R (firstn n l).
Proof.
  induction n as [|n IH]; intros l H; simpl; [constructor|].
  destruct H as [|a l Hs Hh]; constructor; [now apply IH|].
  destruct n; simpl; [constructor|].
  destruct Hh; constructor. assumption.
Qed.

(** What a returned result is, without any assumption on the ordering. *)
Lemma search_results_facts (t : table) (v : list num) (n : nat)
      (res : list (row * num)) :
  search_results t v n res ->
  length res = Nat.min n (length t) /\
  Sorted desc res /\
  forall x, In x res ->
            In (fst x) t /\
            list_cosine_similarity (embedding (fst x)) v = Some (snd x).
Proof.
  intros [rows [sorted [Hsel [[Hperm Hsorted] ->]]]].
  destruct (select_similarity_rows t v Hsel) as [Hfst Hsim].
  split; [|split].
  - rewrite length_firstn, <- (Permutation_length Hperm), <- Hfst.
    now rewrite length_map.
  - now apply sorted_firstn.
  - intros x Hx.
    assert (Hin : In x rows).
    { apply (Permutation_in _ (Permutation_sym Hperm)).
      rewrite <- (firstn_skipn n sorted). apply in_or_app. now left. }
    split; [rewrite <- Hfst; now apply in_map | now apply Hsim].
Qed.

(** X13: the queries a run hands to the model are the lines typed before
    the first exit word that are not blank, in the order typed, each once:
    all of them when the run ends normally, and those up to the failing
    query when an exception ends it. *)
Theorem loop_encodes_queries (t : table) (n : Z) (inputs : list str)
        (evs : list event) (o : outcome) :
  query_loop t n inputs evs o ->
  exists rest,
    queries_of inputs = encoded evs ++ rest /\
    (o = Completed -> rest = []).
Proof.
  unfold queries_of.
  induction 1 as [ | query rest Hexit
                   | query rest evs o Hexit Hblank _ IH
                   | query rest Hexit Hq Henc
                   | query rest v Hexit Hq Henc Hraise
                   | query rest v res evs o Hexit Hq Henc Hres _ IH ];
    cbn [take_until filter encoded app]; rewrite ?Hexit;
    cbn [filter]; rewrite ?Hblank, ?Hq.
  - now exists [].
  - now exists [].
  - exact IH.
  - eexists. split; [reflexivity | discriminate].
  - eexists. split; [reflexivity | discriminate].
  - destruct IH as [more [-> Hdone]]. exists more. split; [reflexivity | assumption].
Qed.

(** X14: a run prints matches only for a count [n] that is not negative,
    and every list of matches it prints has [min n (rows stored)] entries, is in order of descending similarity, and each entry shows the
    fields of one stored row together with the similarity the engine gave
    for that row's vector and the vector of a query that was typed. *)
Theorem printed_results_sound (t : table) (n : Z) (inputs : list str)
        (evs : list event) (o : outcome) :
  query_loop t n inputs evs o ->
  forall results,
    In (EvResults results) evs ->
    (0 <= n)%Z /\
    length results = Nat.min (Z.to_nat n) (length t) /\
    exists query v res,
      In query inputs /\
      encode query = Some v /\
      results = map fetch res /\
      Sorted desc res /\
      forall x, In x res ->
                In (fst x) t /\
                list_cosine_similarity (embedding (fst x)) v = Some (snd x).
Proof.
  induction 1 as [ | query rest Hexit
                   | query rest evs o Hexit Hblank _ IH
                   | query rest Hexit Hq Henc
                   | query rest v Hexit Hq Henc Hraise
                   | query rest v res evs o Hexit Hq Henc Hres _ IH ];
    intros results Hin; simpl in Hin.
  - destruct Hin as [Hin | []]; discriminate.
  - destruct Hin as [Hin | []]; discriminate.
  - destruct Hin as [Hin | Hin]; [discriminate|].
    destruct (IH results Hin) as [Hn [Hlen [q [v [res [Hq' H']]]]]].
    split; [assumption|]. split; [assumption|].
    exists q, v, res. split; [now right | assumption].
  - destruct Hin as [Hin | [Hin | []]]; discriminate.
  - destruct Hin as [Hin | [Hin | [Hin | []]]]; discriminate.
  - destruct Hin as [Hin | [Hin | [Hin | [Hin | Hin]]]]; try discriminate.
    + inversion Hin; subst results. destruct Hres as [Hn Hres].
      destruct (search_results_facts Hres) as [Hlen [Hsorted Hrows]].
      split; [assumption|]. split; [now rewrite length_map|].
      exists query, v, res. repeat split; auto; try apply Hrows; auto.
      now left.
    + destruct (IH results Hin) as [Hn [Hlen [q [v' [res' [Hq' H']]]]]].
      split; [assumption|]. split; [assumption|]. exists q, v', res'.
      split; [now right | assumption].
Qed.

End LoopTrace.

(** ** Ingest, then look up *)

Section RoundTrip.

Context {E : Engine} {M : Embedder E}.

Lemma executemany_In (data : list row) :
  forall t r, In r (executemany t data) -> In r t \/ In r data.
Proof.
  unfold executemany.
  induction data as [|x data IH]; intros t r; simpl; [now left|].
  intros H. apply IH in H as [H | H]; [|now right; right].
  unfold insert_or_ignore in H. destruct (has_key t x); [now left|].
  apply in_app_or in H as [H | [<- | []]]; [now left | right; now left].
Qed.

Lemma data_to_insert_filename (fname au ti : str) (lns : list Z)
      (embs : list (list num)) (texts : list str) :
  forall i data,
    data_to_insert fname au ti lns embs i texts = Some data ->
    forall r, In r data -> filename r = fname.
Proof.
  induction texts as [|text texts IH]; intros i data; simpl.
  - intros H; inversion H. intros r [].
  - destruct (nth_error lns i); [|discriminate].
    destruct (nth_error embs i); [|discriminate].
    destruct (data_to_insert fname au ti lns embs (S i) texts) eqn:Hrec;
      [|discriminate].
    intros H; inversion H. intros r [<- | Hr]; [reflexivity|].
    eapply IH; eassumption.
Qed.

(** A row the loop body leaves in the table was there before or carries
    the file's name. *)
Lemma process_file_rows (st : state) (fname : str)
      (file : option (list str)) (r : row) :
  In r (db (fst (process_file st fname file))) ->
  In r (db st) \/ filename r = fname.
Proof.
  unfold process_file. destruct file as [file_content|]; [|now left].
  destruct (parse_file file_content) as [[au ti] cl].
  destruct cl as [|c cl]; [now left|].
  destruct (encode_batch (map snd (c :: cl))) as [embs|]; [|now left].
  destruct (data_to_insert fname au ti (map fst (c :: cl)) embs 0
                           (map snd (c :: cl))) as [data|] eqn:Hdata;
    [|now left].
  unfold insert_batch. cbn [fst db]. intros H.
  apply executemany_In in H as [H | H]; [now left | right].
  eapply data_to_insert_filename; eassumption.
Qed.

Lemma rows_of_find (fname au ti : str) :
  forall (cl : list (Z * str)) (embs : list (list num)) ln text,
    (length cl <= length embs)%nat ->
    NoDup (map fst cl) ->
    In (ln, text) cl ->
    exists e,
      find_key (fname, ln) (rows_of fname au ti cl embs)
      = Some (mk_row ln fname au ti text e).
Proof.
  unfold rows_of, find_key.
  induction cl as [|[ln0 text0] cl IH]; intros embs ln text Hlen Hnd Hin;
    [destruct Hin|].
  destruct embs as [|e embs]; [simpl in Hlen; lia|].
  simpl in Hlen. inversion Hnd as [|n ns Hn Hnd']; subst.
  cbn [combine map find fst snd]. unfold key_test at 1.
  cbn [fst snd filename line_number].
  rewrite PyStrFacts.eqb_refl. cbn [andb].
  destruct Hin as [Heq | Hin].
  - inversion Heq; subst. rewrite Z.eqb_refl. now exists e.
  - destruct (Z.eqb_spec ln ln0) as [-> | Hne].
    + exfalso. apply Hn. change ln0 with (fst (ln0, text)). now apply in_map.
    + apply IH; [lia | assumption | assumption].
Qed.

Lemma rows_of_keys_le (fname au ti : str) :
  forall (cl : list (Z * str)) (embs : list (list num)),
    (length cl <= length embs)%nat ->
    map key (rows_of fname au ti cl embs) = map (fun p => (fname, fst p)) cl.
Proof.
  unfold rows_of.
  induction cl as [|p cl IH]; intros [|e embs] H; simpl in *;
    try reflexivity; try lia.
  f_equal. apply IH. lia.
Qed.

Lemma find_key_none (t : table) (fname : str) (ln : Z) :
  (forall r, In r t -> filename r <> fname) ->
  find_key (fname, ln) t = None.
Proof.
  intros H. unfold find_key.
  destruct (find (key_test (fname, ln)) t) as [r|] eqn:Hf; [|reflexivity].
  apply find_some in Hf as [Hin Hk]. apply key_test_iff in Hk.
  exfalso. apply (H r Hin). unfold key in Hk. now inversion Hk.
Qed.

Lemma find_key_extends (t added : table) (k : str * Z) (r : row) :
  find_key k t = Some r -> find_key k (t ++ added) = Some r.
Proof.
  unfold find_key. intros H. now rewrite find_over_app, H.
Qed.

Lemma process_files_lookup (files : list (str * option (list str))) :
  forall st,
    NoDup (map fst files) ->
    (forall r, In r (db st) -> ~ In (filename r) (map fst files)) ->
    snd (process_files st files) = Completed ->
    forall fname file_content ln text,
      In (fname, Some file_content) files ->
      In (ln, text) (snd (parse_file file_content)) ->
      exists e,
        find_key (fname, ln) (db (fst (process_files st files)))
        = Some (mk_row ln fname (fst (fst (parse_file file_content)))
                       (snd (fst (parse_file file_content))) text e).
Proof.
  induction files as [|[f0 file0] files IH];
    intros st Hnd Hfresh Hdone fname fc ln text Hfile Hline; [destruct Hfile|].
  cbn [map fst] in Hnd. inversion Hnd as [|n ns Hf0 Hnd']; subst.
  cbn [process_files] in *.
  pose proof (@process_file_rows st f0 file0) as Hrows.
  destruct (process_file st f0 file0) as [st1 [e|]] eqn:Hpf;
    [discriminate|]. cbn [fst] in Hrows.
  destruct Hfile as [Heq | Hfile].
  - inversion Heq; subst f0 file0. clear Heq.
    destruct (process_files_extends files st1) as [added ->].
    assert (Hst1 : exists e,
               find_key (fname, ln) (db st1)
               = Some (mk_row ln fname (fst (fst (parse_file fc)))
                              (snd (fst (parse_file fc))) text e)).
    { pose proof (parse_file_NoDup fc) as Hlnd.
      unfold process_file in Hpf.
      destruct (parse_file fc) as [[au ti] cl]. cbn [fst snd] in *.
      destruct cl as [|c cl]; [destruct Hline|].
      destruct (encode_batch (map snd (c :: cl))) as [embs|]; [|discriminate].
      destruct (data_to_insert fname au ti (map fst (c :: cl)) embs 0
                               (map snd (c :: cl))) as [data|] eqn:Hdata;
        [|discriminate].
      apply data_to_insert_some in Hdata as [Hle ->].
      unfold insert_batch in Hpf. inversion Hpf; subst st1. clear Hpf.
      cbn [db].
      assert (Hnone : forall r, In r (db st) -> filename r <> fname).
      { intros r Hr Hname. apply (Hfresh r Hr). left. now symmetry. }
      rewrite executemany_fresh.
      - destruct (@rows_of_find fname au ti (c :: cl) embs ln text Hle Hlnd Hline)
          as [e He].
        exists e. unfold find_key in *. rewrite find_over_app.
        pose proof (@find_key_none (db st) fname ln Hnone) as Hn.
        unfold find_key in Hn. now rewrite Hn.
      - rewrite rows_of_keys_le by assumption.
        clear - Hlnd. induction (c :: cl) as [|p l IHl]; simpl in *;
          [constructor|].
        inversion Hlnd as [|n ns Hn Hnd']; subst.
        constructor; [|now apply IHl].
        rewrite in_map_iff. intros [q [Hq Hin]]. apply Hn.
        injection Hq as Hfst. rewrite <- Hfst. now apply in_map.
      - intros r Hr. apply has_key_false. rewrite in_map_iff.
        intros [x [Hk Hx]]. apply (Hnone x Hx).
        apply rows_of_filename in Hr. unfold key in Hk. congruence. }
    destruct Hst1 as [e He]. exists e. now apply find_key_extends.
  - apply IH; try assumption.
    intros r Hr Hin. destruct (Hrows r Hr) as [Hold | Hname].
    + apply (Hfresh r Hold). now right.
    + apply Hf0. now rewrite <- Hname.
Qed.

(** X16: ingest, then look up.  After a completed run of prepare.py on a
    new database and a directory whose entries have different names, every
    content line of every text file is found under the key of its file
    name and line number, and the row found carries that line's stripped
    text and the file's author and title. *)
Theorem ingested_lines_found
        (entries : list (str * option (list str))) :
  NoDup (map fst entries) ->
  snd (prepare_main None (Some entries)) = Completed ->
  forall fname file_content ln text,
    In (fname, Some file_content) entries ->
    PyStr.endswith fname (py ".txt") = true ->
    In (ln, text) (snd (parse_file file_content)) ->
    exists e,
      find_key (fname, ln) (db (fst (prepare_main None (Some entries))))
      = Some (mk_row ln fname (fst (fst (parse_file file_content)))
                     (snd (fst (parse_file file_content))) text e).
Proof.
  intros Hnd Hdone fname fc ln text Hin Htxt Hline.
  unfold prepare_main in *.
  assert (Hf : In (fname, Some fc)
                  (filter (fun f => PyStr.endswith (fst f) (py ".txt")) entries))
    by (apply filter_In; split; assumption).
  assert (Hnd' : NoDup (map fst (filter (fun f => PyStr.endswith (fst f) (py ".txt"))
                                        entries))).
  { clear - Hnd. induction entries as [|x entries IH]; simpl in *;
      [constructor|].
    inversion Hnd as [|n ns Hn Hnd']; subst.
    destruct (PyStr.endswith (fst x) (py ".txt")); [|now apply IH].
    simpl. constructor; [|now apply IH].
    intros Hx. apply Hn. apply in_map_iff in Hx as [y [Hy Hyin]].
    apply filter_In in Hyin as [Hyin _]. rewrite <- Hy. now apply in_map. }
  destruct (filter (fun f => PyStr.endswith (fst f) (py ".txt")) entries)
    as [|f files] eqn:Hfilter; [destruct Hf|].
  apply process_files_lookup; try assumption.
  intros r [].
Qed.

End RoundTrip.

(** ** The further properties on the stand-ins *)

Section MoreOnStubs.

Import Stub.

Local Open Scope Z_scope.

#[local] Existing Instance engine.
#[local] Existing Instance embedder.
#[local] Existing Instance stub_order.

Lemma parse_file_positions_witness :
  In (3, py "padded") (snd (parse_file blank_book)) /\
  1 <= 3 <= Z.of_nat (length blank_book) /\
  exists line,
    nth_error blank_book (Z.to_nat (3 - 1)) = Some line /\
    py "padded" = PyStr.strip line.
Proof.
  assert (H : In (3, py "padded") (snd (parse_file blank_book)))
    by (vm_compute; left; reflexivity).
  split; [exact H|].
  destruct (@ParseFacts.parse_file_positions blank_book 3 (py "padded") H)
    as [Hrange [line [Hnth [Htext _]]]].
  split; [exact Hrange|]. exists line. split; [exact Hnth | exact Htext].
Defined.

Lemma parse_file_stops_at_end_witness :
  is_start_line end_line = false /\
  is_end_line end_line = true /\
  parse_file ((preamble ++ start_line :: body)
                ++ end_line :: [py "trailer"; py "Title: X"])
  = parse_file ((preamble ++ start_line :: body) ++ [end_line]).
Proof.
  split; [reflexivity|]. split; [reflexivity|].
  exact (@ParseFacts.parse_file_stops_at_end
           (preamble ++ start_line :: body) [py "trailer"; py "Title: X"]
           end_line eq_refl eq_refl).
Defined.

Lemma parse_file_book_witness :
  Forall plain_line preamble /\
  is_start_line long_s_start_line = true /\
  Forall plain_line [nbsp_line; padded_line] /\
  snd (parse_file (preamble ++ long_s_start_line
                     :: [nbsp_line; padded_line] ++ end_line :: [py "trailer"]))
  = stripped_lines (Z.of_nat (length preamble) + 2) [nbsp_line; padded_line] /\
  stripped_lines (Z.of_nat (length preamble) + 2) [nbsp_line; padded_line]
  = [(5, py "padded")].
Proof.
  assert (Hpre : Forall plain_line preamble)
    by (repeat constructor).
  assert (Hbody : Forall plain_line [nbsp_line; padded_line])
    by (repeat constructor).
  split; [exact Hpre|]. split; [reflexivity|]. split; [exact Hbody|].
  split; [|reflexivity].
  exact (@ParseFacts.parse_file_book preamble [nbsp_line; padded_line]
           [py "trailer"] long_s_start_line end_line
           Hpre eq_refl Hbody eq_refl eq_refl).
Defined.

Lemma parse_file_defaults_witness :
  (forall line, In line [py "hello"; py "world"] ->
                is_start_line line = false) /\
  snd (parse_file [py "hello"; py "world"]) = [].
Proof.
  assert (H : forall line, In line [py "hello"; py "world"] ->
                           is_start_line line = false)
    by (intros line [<- | [<- | []]]; reflexivity).
  split; [exact H|].
  exact (proj1 (@ParseFacts.parse_file_defaults [py "hello"; py "world"]) H).
Defined.

Lemma first_write_wins_witness :
  find_key (key row1_again) [row1] = Some row1 /\
  find_key (key row1_again) (executemany [row1] [row1_again; row2]) = Some row1.
Proof.
  assert (H : find_key (key row1_again) [row1] = Some row1) by reflexivity.
  split; [exact H|].
  exact (proj1 (proj2 (@first_write_wins engine [row1] [row1_again; row2]
                         (key row1_again)))
               row1 H).
Defined.

Lemma insert_batch_distinct_witness :
  NoDup (map key [row1_again; row2]) /\
  insert_batch [row1] [row1_again; row2] = ([row1; row2], 1, 1).
Proof.
  assert (H : NoDup (map key [row1_again; row2])).
  { constructor; [intros [H | []]; discriminate|].
    constructor; [intros []|constructor]. }
  split; [exact H|].
  exact (@insert_batch_distinct engine [row1] [row1_again; row2] H).
Defined.

Lemma no_write_on_failure_witness :
  process_file st0 (py "bad.txt") (Some bad_book)
  = (fst (process_file st0 (py "bad.txt") (Some bad_book)), Some EmbedderError) /\
  db (fst (process_file st0 (py "bad.txt") (Some bad_book))) = db st0.
Proof.
  assert (H : process_file st0 (py "bad.txt") (Some bad_book)
              = (fst (process_file st0 (py "bad.txt") (Some bad_book)),
                 Some EmbedderError)) by reflexivity.
  split; [exact H|].
  exact (proj1 (@no_write_on_failure engine embedder st0 _ (py "bad.txt")
                  (Some bad_book) EmbedderError H)).
Defined.

Lemma prepare_main_totals_witness :
  snd (prepare_main None (Some mixed_dir)) = Completed /\
  total_lines_inserted (tot (fst (prepare_main None (Some mixed_dir))))
  + total_lines_skipped (tot (fst (prepare_main None (Some mixed_dir))))
  = total_lines_processed (tot (fst (prepare_main None (Some mixed_dir)))).
Proof.
  assert (H : snd (prepare_main None (Some mixed_dir)) = Completed)
    by reflexivity.
  split; [exact H|].
  exact (proj2 (proj2 (proj2 (proj2
           (@prepare_main_totals engine embedder None (Some mixed_dir))))) H).
Defined.

Lemma prepare_main_keeps_rows_witness :
  find_key (key row3) (create_table (Some [row3])) = Some row3 /\
  find_key (key row3)
           (db (fst (prepare_main (Some [row3]) (Some mixed_dir))))
  = Some row3.
Proof.
  assert (H : find_key (key row3) (create_table (Some [row3])) = Some row3)
    by reflexivity.
  split; [exact H|].
  exact (proj2 (@prepare_main_keeps_rows engine embedder (Some [row3])
                  (Some mixed_dir))
               (key row3) row3 H).
Defined.

Lemma prepare_main_files_witness :
  In (py "b.txt") (announced (out (fst (prepare_main None (Some mixed_dir))))) /\
  exists pre, py "b.txt" = pre ++ py ".txt".
Proof.
  assert (H : In (py "b.txt")
                 (announced (out (fst (prepare_main None (Some mixed_dir))))))
    by (vm_compute; right; left; reflexivity).
  split; [exact H|].
  exact (proj2 (proj2 (@prepare_main_files engine embedder None mixed_dir))
               (py "b.txt") H).
Defined.

Lemma loop_encodes_queries_witness :
  query_loop [row1] 1 [nbsp_line; py "the cat"; py "Quit"; py "more"]
             [EvPrompt;
              EvPrompt; EvEncode (py "the cat");
              EvExecute (vec (py "the cat")) 1;
              EvResults (map fetch [(row1, 78)]);
              EvPrompt]
             Completed /\
  queries_of [nbsp_line; py "the cat"; py "Quit"; py "more"] = [py "the cat"] /\
  exists rest,
    queries_of [nbsp_line; py "the cat"; py "Quit"; py "more"]
    = encoded (E := engine)
              [EvPrompt;
               EvPrompt; EvEncode (py "the cat");
               EvExecute (vec (py "the cat")) 1;
               EvResults (map fetch [(row1, 78)]);
               EvPrompt] ++ rest /\
    (Completed = Completed -> rest = []).
Proof.
  assert (H : query_loop [row1] 1
                [nbsp_line; py "the cat"; py "Quit"; py "more"]
                [EvPrompt;
                 EvPrompt; EvEncode (py "the cat");
                 EvExecute (vec (py "the cat")) 1;
                 EvResults (map fetch [(row1, 78)]);
                 EvPrompt]
                Completed).
  { apply loop_continue; [reflexivity | reflexivity |].
    apply loop_results; [reflexivity | reflexivity | reflexivity | |].
    - split; [lia|]. apply search_is_result. reflexivity.
    - apply loop_exit. reflexivity. }
  split; [exact H|]. split; [reflexivity|].
  exact (@loop_encodes_queries engine embedder _ _ _ _ _ H).
Defined.

Lemma printed_results_sound_witness :
  query_loop [row1; row2] 1 [py "the cat"]
             [EvPrompt; EvEncode (py "the cat");
              EvExecute (vec (py "the cat")) 1;
              EvResults (map fetch [(row1, 78)]); EvPrompt]
             Completed /\
  0 <= 1 /\
  length (map fetch [(row1, 78)]) = Nat.min (Z.to_nat 1) (length [row1; row2]).
Proof.
  assert (H : query_loop [row1; row2] 1 [py "the cat"]
                [EvPrompt; EvEncode (py "the cat");
                 EvExecute (vec (py "the cat")) 1;
                 EvResults (map fetch [(row1, 78)]); EvPrompt]
                Completed).
  { apply loop_results; [reflexivity | reflexivity | reflexivity | |].
    - split; [lia|]. apply search_is_result. reflexivity.
    - apply loop_eof. }
  split; [exact H|].
  destruct (@printed_results_sound engine embedder _ _ _ _ _ H
              (map fetch [(row1, 78)])
              (or_intror (or_intror (or_intror (or_introl eq_refl)))))
    as [Hn [Hlen _]].
  split; [exact Hn | exact Hlen].
Defined.

Lemma ingested_lines_found_witness :
  NoDup (map fst mixed_dir) /\
  snd (prepare_main None (Some mixed_dir)) = Completed /\
  exists e,
    find_key (py "b.txt", 6) (db (fst (prepare_main None (Some mixed_dir))))
    = Some (mk_row 6 (py "b.txt") (fst (fst (parse_file book)))
                   (snd (fst (parse_file book))) (py "a dog ran") e).
Proof.
  assert (Hnd : NoDup (map fst mixed_dir)).
  { repeat constructor; simpl; intuition discriminate. }
  assert (Hdone : snd (prepare_main None (Some mixed_dir)) = Completed)
    by reflexivity.
  split; [exact Hnd|]. split; [exact Hdone|].
  apply (@ingested_lines_found engine embedder mixed_dir Hnd Hdone
           (py "b.txt") book 6 (py "a dog ran")).
  - right; right; left; reflexivity.
  - reflexivity.
  - vm_compute. right; left; reflexivity.
Defined.

End MoreOnStubs.
